(** * Substance document engine: editing, annotations, indices, history

    A shallow embedding of the parts of the Substance rich-text engine that
    its specification makes claims about:

    - [model/Editing.js]: [_insertText], [_breakTextNode], [_merge],
      [_mergeNodes], [delete] and the surrogate predicates;
    - [model/DocumentSession.js]: [_commitChange], [_applyChange],
      [_onDocumentChange];
    - the component class: [_render] and its re-entrancy flag;
    - the document primitives, [annotationHelpers], [documentHelpers],
      the parent links, [DocumentIndex] and the transaction runner, which
      the sources call but which are described by the specification only.

    JavaScript numbers that hold offsets are modelled as [Z], strings that
    hold text as lists of UTF-16 code units ([list Z]), node ids as [string],
    the node store as a [gmap string Node]. Exceptions are results of type
    [Result]. *)

From Stdlib Require Import ZArith Lia Ascii.
From stdpp Require Import gmap strings list fin_maps pretty.

Open Scope Z_scope.

(** ** Results of fallible code *)

Inductive Result (A : Type) : Type :=
| Ok (a : A)
| Err (msg : string).
Arguments Ok {A} a.
Arguments Err {A} msg.

Definition bind {A B : Type} (r : Result A) (k : A -> Result B) : Result B :=
  match r with
  | Ok a => k a
  | Err m => Err m
  end.

Notation "x <- r ;;; k" := (bind r (fun x => k))
  (at level 100, r at next level, right associativity).

Definition of_option {A : Type} (o : option A) (msg : string) : Result A :=
  match o with
  | Some a => Ok a
  | None => Err msg
  end.

(** [l.forEach(f)] where [f] may throw and threads the transaction. *)
Fixpoint forEach {S A : Type} (f : S -> A -> Result S) (l : list A) (s : S)
  : Result S :=
  match l with
  | [] => Ok s
  | a :: l' => s' <- f s a ;;; forEach f l' s'
  end.

(** ** JavaScript strings as UTF-16 code units *)

Definition Text := list Z.

Definition text_length (t : Text) : Z := Z.of_nat (length t).

(** [t.charCodeAt(i)]: [None] stands for [NaN] (index out of range). *)
Definition charCodeAt (t : Text) (i : Z) : option Z :=
  if i <? 0 then None else t !! Z.to_nat i.

(** [t.substring(i)] for a single argument: negative indices clamp to 0. *)
Definition substring_from (t : Text) (i : Z) : Text := drop (Z.to_nat i) t.

(** Modelled from the spec: the text operation [delete(start, end)] of
    section 4.1, the slice before [start] followed by the slice from
    [end]. *)
Definition text_delete (t : Text) (s e : Z) : Text :=
  take (Z.to_nat s) t ++ drop (Z.to_nat e) t.

(** Modelled from the spec: the text operation [insert(start, text)] of
    section 4.1. *)
Definition text_insert (t : Text) (s : Z) (ins : Text) : Text :=
  take (Z.to_nat s) t ++ ins ++ drop (Z.to_nat s) t.

(** ** Coordinates and selections *)

Definition Path := list string.

Record Coordinate := mkCoor { path : Path; offset : Z }.

#[global] Instance Coordinate_eq_dec : EqDecision Coordinate.
Proof. solve_decision. Defined.

Inductive Direction := DirLeft | DirRight.

Inductive NodeMode := Before | After | Full.

Inductive Selection :=
| NullSelection
| PropertySelection (p : Path) (startOffset endOffset : Z)
    (containerPath : option Path)
| ContainerSelection (containerPath : Path) (startPath : Path)
    (startOffset : Z) (endPath : Path) (endOffset : Z)
| NodeSelection (containerPath : Path) (nodeId : string) (mode : NodeMode)
| CustomSelection.

Definition isNodeSelection (sel : Selection) : bool :=
  match sel with NodeSelection _ _ _ => true | _ => false end.

Definition isCustomSelection (sel : Selection) : bool :=
  match sel with CustomSelection => true | _ => false end.

Definition isPropertySelection (sel : Selection) : bool :=
  match sel with PropertySelection _ _ _ _ => true | _ => false end.

Definition isContainerSelection (sel : Selection) : bool :=
  match sel with ContainerSelection _ _ _ _ _ => true | _ => false end.

(** [sel.start] and [sel.end]; only range selections carry text
    coordinates. *)
Definition sel_start (sel : Selection) : option Coordinate :=
  match sel with
  | PropertySelection p s _ _ => Some (mkCoor p s)
  | ContainerSelection _ sp s _ _ => Some (mkCoor sp s)
  | _ => None
  end.

Definition sel_end (sel : Selection) : option Coordinate :=
  match sel with
  | PropertySelection p _ e _ => Some (mkCoor p e)
  | ContainerSelection _ _ _ ep e => Some (mkCoor ep e)
  | _ => None
  end.

Definition sel_containerPath (sel : Selection) : option Path :=
  match sel with
  | PropertySelection _ _ _ cp => cp
  | ContainerSelection cp _ _ _ _ => Some cp
  | NodeSelection cp _ _ => Some cp
  | _ => None
  end.

(** [sel.isCollapsed()]: start and end coincide. *)
Definition isCollapsed (sel : Selection) : bool :=
  match sel_start sel, sel_end sel with
  | Some s, Some e => bool_decide (s = e)
  | _, _ => false
  end.

(** The selection built by [tx.setSelection({type: 'property', path,
    startOffset, containerPath})]: without [endOffset] it is collapsed. *)
Definition cursorAt (p : Path) (o : Z) (cp : option Path) : Selection :=
  PropertySelection p o o cp.

(** ** Nodes and the transaction state *)

Inductive NodeData :=
| TextData (content : Text)
| AnnotationData (start end_ : Coordinate)
| ContainerData (nodeIds : list string)
| ListData (items : list string)
| OtherData.

(** A node as stored under its id. *)
Record Node := mkNode { type : string; data : NodeData }.

Inductive Endpoint := AtStart | AtEnd.

(** The primitive operations a transaction records, one per mutation. *)
Inductive Op :=
| OpCreate (i : string) (n : Node)
| OpDelete (i : string) (n : Node)
| OpTextDelete (p : Path) (s e : Z)
| OpTextInsert (p : Path) (s : Z) (t : Text)
| OpShift (i : string) (ep : Endpoint) (v : Z)
| OpSetCoordinate (i : string) (ep : Endpoint) (c : Coordinate)
| OpArrayInsert (p : Path) (pos : Z) (v : string)
| OpArrayDelete (p : Path) (pos : Z).

(** The editing interface [tx]: the node store, the current selection, the
    operations recorded so far, and the state of the id generator
    ([count] of [util/uuid.js], and the number of random ids drawn). *)
Record Tx := mkTx {
  nodes : gmap string Node;
  selection : Selection;
  ops : list Op;
  count : nat;
  rng : nat
}.

Definition with_nodes (tx : Tx) (m : gmap string Node) : Tx :=
  mkTx m (selection tx) (ops tx) (count tx) (rng tx).

Definition record (tx : Tx) (op : Op) : Tx :=
  mkTx (nodes tx) (selection tx) (ops tx ++ [op]) (count tx) (rng tx).

Definition setSelection (tx : Tx) (sel : Selection) : Tx :=
  mkTx (nodes tx) sel (ops tx) (count tx) (rng tx).

(** The name of the property a text node keeps its characters in. *)
Definition textProp : string := "content".

(** [node.getPath()] of a text node. *)
Definition getPath (i : string) : Path := [i; textProp].

(** The text node addressed by a property path, with its id and type. *)
Definition text_at (tx : Tx) (p : Path) : option (string * string * Text) :=
  match p with
  | [i; prop] =>
      if bool_decide (prop = textProp) then
        match nodes tx !! i with
        | Some (mkNode ty (TextData t)) => Some (i, ty, t)
        | _ => None
        end
      else None
  | _ => None
  end.

(** [tx.get(path)] for a text property. *)
Definition getText (tx : Tx) (p : Path) : option Text :=
  match text_at tx p with
  | Some (_, _, t) => Some t
  | None => None
  end.

(** Modelled from the spec: the mutation API of the document (section 4.1),
    whose implementation is not part of the sources at hand. Each
    primitive applies one typed operation and records it.
    [tx.update(path, {type: 'delete', start, end})] on a text property. *)
Definition update_text_delete (tx : Tx) (p : Path) (s e : Z) : Result Tx :=
  match text_at tx p with
  | Some (i, ty, t) =>
      Ok (record
            (with_nodes tx (<[i := mkNode ty (TextData (text_delete t s e))]> (nodes tx)))
            (OpTextDelete p s e))
  | None => Err "NotFoundError"
  end.

(** Modelled from the spec: [tx.update(path, {type: 'insert', start, text})]
    on a text property (section 4.1). *)
Definition update_text_insert (tx : Tx) (p : Path) (s : Z) (ins : Text)
  : Result Tx :=
  match text_at tx p with
  | Some (i, ty, t) =>
      Ok (record
            (with_nodes tx (<[i := mkNode ty (TextData (text_insert t s ins))]> (nodes tx)))
            (OpTextInsert p s ins))
  | None => Err "NotFoundError"
  end.

Definition shift_coor (c : Coordinate) (v : Z) : Coordinate :=
  mkCoor (path c) (offset c + v).

(** Modelled from the spec: [tx.update([id, 'start' | 'end'], {type:
    'shift', value})], the offset adjustment of a coordinate
    (section 4.1). *)
Definition update_shift (tx : Tx) (i : string) (ep : Endpoint) (v : Z)
  : Result Tx :=
  match nodes tx !! i with
  | Some (mkNode ty (AnnotationData st en)) =>
      let d := match ep with
               | AtStart => AnnotationData (shift_coor st v) en
               | AtEnd => AnnotationData st (shift_coor en v)
               end in
      Ok (record (with_nodes tx (<[i := mkNode ty d]> (nodes tx))) (OpShift i ep v))
  | _ => Err "NotFoundError"
  end.

(** Modelled from the spec: [tx.set] of one coordinate of an annotation
    (path and offset), section 4.1. *)
Definition set_coordinate (tx : Tx) (i : string) (ep : Endpoint)
  (c : Coordinate) : Result Tx :=
  match nodes tx !! i with
  | Some (mkNode ty (AnnotationData st en)) =>
      let d := match ep with
               | AtStart => AnnotationData c en
               | AtEnd => AnnotationData st c
               end in
      Ok (record (with_nodes tx (<[i := mkNode ty d]> (nodes tx)))
            (OpSetCoordinate i ep c))
  | _ => Err "NotFoundError"
  end.

(** Modelled from the spec: [tx.delete(id)] removes the node and fails with
    [NotFoundError] if it is absent (section 4.1). *)
Definition delete_node (tx : Tx) (i : string) : Result Tx :=
  match nodes tx !! i with
  | Some n => Ok (record (with_nodes tx (delete i (nodes tx))) (OpDelete i n))
  | None => Err "NotFoundError"
  end.

(** Modelled from the spec: [tx.create(nodeData)] with a given id installs
    the node (section 4.1). *)
Definition create (tx : Tx) (i : string) (n : Node) : Tx :=
  record (with_nodes tx (<[i := n]> (nodes tx))) (OpCreate i n).

Definition is_anno_on (p : Path) (kv : string * Node) : bool :=
  match data kv.2 with
  | AnnotationData st _ => bool_decide (path st = p)
  | _ => false
  end.

(** Modelled from the spec: [tx.getAnnotations(path)], the annotations
    anchored on a text property (section 6, read API). *)
Definition getAnnotations (tx : Tx) (p : Path) : list (string * Node) :=
  filter (fun kv => is_anno_on p kv = true) (map_to_list (nodes tx)).

(** ** Containers and structural helpers *)

(** [tx.get(containerPath)]: the ordered node ids of a container. *)
Definition container_ids (tx : Tx) (cp : Path) : option (list string) :=
  match cp with
  | [c; _] =>
      match nodes tx !! c with
      | Some (mkNode _ (ContainerData l)) => Some l
      | _ => None
      end
  | _ => None
  end.

Definition index_of (i : string) (l : list string) : option nat :=
  fst <$> list_find (fun x => x = i) l.

(** Modelled from the spec: [getContainerPosition(tx, containerPath, id)]
    and [node.getPosition()], the position of a node in the container that
    owns it (sections 3 and 4.5). *)
Definition getContainerPosition (tx : Tx) (cp : Path) (i : string)
  : Result Z :=
  l <- of_option (container_ids tx cp) "NotFoundError" ;;;
  n <- of_option (index_of i l) "NotFoundError" ;;;
  Ok (Z.of_nat n).

Definition set_container (tx : Tx) (cp : Path) (l : list string) : Tx :=
  match cp with
  | [c; _] =>
      match nodes tx !! c with
      | Some (mkNode ty _) =>
          with_nodes tx (<[c := mkNode ty (ContainerData l)]> (nodes tx))
      | None => tx
      end
  | _ => tx
  end.

(** Modelled from the spec: [insertAt(tx, containerPath, pos, id)], the
    array operation [insert(pos, value)] on the container (section 4.1). *)
Definition insertAt (tx : Tx) (cp : Path) (pos : Z) (i : string) : Result Tx :=
  l <- of_option (container_ids tx cp) "NotFoundError" ;;;
  if (pos <? 0) || (Z.of_nat (length l) <? pos) then Err "Index out of range"
  else
    Ok (record
          (set_container tx cp (take (Z.to_nat pos) l ++ i :: drop (Z.to_nat pos) l))
          (OpArrayInsert cp pos i)).

(** Modelled from the spec: [removeAt(tx, containerPath, pos)], the array
    operation that deletes one position of the container (section 4.1). *)
Definition removeAt (tx : Tx) (cp : Path) (pos : Z) : Result Tx :=
  l <- of_option (container_ids tx cp) "NotFoundError" ;;;
  if (pos <? 0) || (Z.of_nat (length l) <=? pos) then Err "Index out of range"
  else
    Ok (record
          (set_container tx cp (take (Z.to_nat pos) l ++ drop (S (Z.to_nat pos)) l))
          (OpArrayDelete cp pos)).

Definition isText (n : Node) : bool :=
  match data n with TextData _ => true | _ => false end.

Definition isList (n : Node) : bool :=
  match data n with ListData _ => true | _ => false end.

Definition list_holds (tx : Tx) (i : string) (l : string) : bool :=
  match nodes tx !! l with
  | Some (mkNode _ (ListData items)) => bool_decide (i ∈ items)
  | _ => false
  end.

(** Modelled from the spec: [getContainerRoot(tx, containerPath, id)], the
    member of the container the node belongs to: the node itself, or the
    list that holds it as an item (section 4.5, "a List's root is the List,
    not the ListItem"). *)
Definition getContainerRoot (tx : Tx) (cp : Path) (i : string)
  : Result string :=
  l <- of_option (container_ids tx cp) "NotFoundError" ;;;
  if bool_decide (i ∈ l) then Ok i
  else of_option (snd <$> list_find (fun r => list_holds tx i r = true) l)
         "NotFoundError".

Definition transfer_step (offset_ : Z) (newPath : Path) (newOffset : Z)
  (tx : Tx) (anno : string * Node) : Result Tx :=
  match data anno.2 with
  | AnnotationData st en =>
      if offset_ <=? offset st then
        tx1 <- set_coordinate tx anno.1 AtStart
                 (mkCoor newPath (newOffset + offset st - offset_)) ;;;
        set_coordinate tx1 anno.1 AtEnd
          (mkCoor newPath (newOffset + offset en - offset_))
      else Ok tx
  | _ => Ok tx
  end.

(** The annotation [transfer_step] leaves in place of [n]. *)
Definition transferred (offset_ : Z) (newPath : Path) (newOffset : Z)
  (n : Node) : Node :=
  match data n with
  | AnnotationData st en =>
      if offset_ <=? offset st then
        mkNode (type n)
          (AnnotationData (mkCoor newPath (newOffset + offset st - offset_))
             (mkCoor newPath (newOffset + offset en - offset_)))
      else n
  | _ => n
  end.

(** Modelled from the spec: [annotationHelpers.transferAnnotations(tx, path,
    offset, newPath, newOffset)] moves every annotation of [path] that is
    positioned at or after [offset] to [newPath], keeping its offsets
    relative to the split point (section 4.5, items 2 and 3). The
    specification does not say what happens to an annotation that straddles
    [offset]; it is left as it is here. *)
Definition transferAnnotations (tx : Tx) (p : Path) (offset_ : Z)
  (newPath : Path) (newOffset : Z) : Result Tx :=
  forEach (transfer_step offset_ newPath newOffset) (getAnnotations tx p) tx.

Definition children (n : Node) : list string :=
  match data n with
  | ContainerData l => l
  | ListData l => l
  | _ => []
  end.

Definition is_attached_to (i : string) (kv : string * Node) : bool :=
  match data kv.2 with
  | AnnotationData st _ => bool_decide (head (path st) = Some i)
  | _ => false
  end.

(** The annotations whose [start.path[0]] is the given node. *)
Definition attachedAnnotations (tx : Tx) (i : string) : list (string * Node) :=
  filter (fun kv => is_attached_to i kv = true) (map_to_list (nodes tx)).

(** Modelled from the spec: [deepDeleteNode(tx, node)] deletes the owned
    subtree of the node and all annotations attached within it
    (section 4.5, item 1). The recursion over the owned children is
    bounded by [fuel]. *)
Fixpoint deepDelete (fuel : nat) (tx : Tx) (i : string) : Result Tx :=
  match fuel with
  | O => Err "recursion limit"
  | S fuel' =>
      n <- of_option (nodes tx !! i) "NotFoundError" ;;;
      tx1 <- forEach (deepDelete fuel') (children n) tx ;;;
      tx2 <- forEach (fun tx' a => delete_node tx' a.1)
               (attachedAnnotations tx1 i) tx1 ;;;
      delete_node tx2 i
  end.

(** The depth of an ownership tree is at most the number of nodes. *)
Definition deepDeleteNode (tx : Tx) (i : string) : Result Tx :=
  deepDelete (S (size (nodes tx))) tx i.

(** ** The annotation repositioning law *)

(** Static facts about node types (the schema) and the process-wide
    settings of the id generator. *)
Record Schema := mkSchema {
  isInlineNode : string -> bool;
  autoExpandRight : string -> bool;
  defaultTextType : Path -> option string;
  DETERMINISTIC_UUID : bool;
  random_digits : nat -> string
}.

Inductive Case :=
| CaseI | CaseII | CaseIII | CaseIV | CaseV | CaseVI | CaseVII.

(** The row of the table of section 4.5 that the else-if chain of
    [_insertText] selects for an annotation [[a,b)] and an edit from [s] to
    [e]: the tests of the column "Geometric relation" in the order of the
    chain, the first one that holds deciding; [None] is the final [else].
    The table itself does not state an order. *)
Definition geometric_relation (inline expands : bool) (s e a b : Z)
  : option Case :=
  if b <? s then Some CaseI
  else if e <=? a then Some CaseII
  else if (s <=? a) && (b <? e) || inline && (s <=? a) && (b <=? e)
  then Some CaseIII
  else if (s <=? a) && (e <=? b) then Some CaseIV
  else if (a <? s) && (b <? e) then Some CaseV
  else if (b =? s) && negb expands then Some CaseVI
  else if (a <? s) && (e <=? b) then Some CaseVII
  else None.

(** Row VI as the table words it, whatever the other rows say: the
    annotation ends where the edit starts and its type does not expand to
    the right. The row prescribes no change. *)
Definition table_row_VI (expands : bool) (s b : Z) : bool :=
  (b =? s) && negb expands.

(** Column "Resulting shift": the amounts added to [a] and to [b], or
    [None] when the annotation is deleted. *)
Definition resulting_shift (c : Case) (inline typeover : bool)
  (s e L a b : Z) : option (Z * Z) :=
  match c with
  | CaseI => Some (0, 0)
  | CaseII => Some (s - e + L, s - e + L)
  | CaseIII => None
  | CaseIV => Some (if typeover && (a =? s) then 0 else s - a + L, s - e + L)
  | CaseV => Some (0, s - b + L)
  | CaseVI => Some (0, 0)
  | CaseVII => Some (0, if inline then 0 else s - e + L)
  end.

(** The annotation the law prescribes in place of [n], if any. *)
Definition repositioned (sch : Schema) (typeover : bool) (s e L : Z)
  (n : Node) : option Node :=
  match data n with
  | AnnotationData st en =>
      let inline := isInlineNode sch (type n) in
      match geometric_relation inline (autoExpandRight sch (type n))
              s e (offset st) (offset en) with
      | Some c =>
          match resulting_shift c inline typeover s e L (offset st) (offset en) with
          | Some (da, db) =>
              Some (mkNode (type n)
                      (AnnotationData (shift_coor st da) (shift_coor en db)))
          | None => None
          end
      | None => Some n
      end
  | _ => Some n
  end.

(** One annotation repositioned as the law prescribes for a deletion
    (an edit with nothing inserted). *)
Definition law_step (sch : Schema) (s e : Z) (tx : Tx)
  (anno : string * Node) : Result Tx :=
  match data anno.2 with
  | AnnotationData st en =>
      let inline := isInlineNode sch (type anno.2) in
      match geometric_relation inline (autoExpandRight sch (type anno.2))
              s e (offset st) (offset en) with
      | Some c =>
          match resulting_shift c inline true s e 0 (offset st) (offset en) with
          | Some (da, db) =>
              tx1 <- (if da =? 0 then Ok tx
                      else update_shift tx anno.1 AtStart da) ;;;
              if db =? 0 then Ok tx1 else update_shift tx1 anno.1 AtEnd db
          | None => delete_node tx anno.1
          end
      | None => Ok tx
      end
  | _ => Ok tx
  end.

(** Modelled from the spec: [deleteTextRange(tx, start, end)] of
    [documentHelpers], the text-local deletion: it removes the characters
    from [start] to [end] of one text property and then repositions every
    annotation anchored on that property as the law of section 4.5
    prescribes for an edit that inserts nothing. *)
Definition deleteTextRange (sch : Schema) (tx : Tx) (start end_ : Coordinate)
  : Result Tx :=
  if negb (bool_decide (path start = path end_))
  then Err "Unsupported state: selection should be on one property"
  else
    tx1 <- update_text_delete tx (path start) (offset start) (offset end_) ;;;
    forEach (law_step sch (offset start) (offset end_))
      (getAnnotations tx1 (path start)) tx1.

(** ** util/uuid.js *)

Fixpoint last_char (s : string) : option Ascii.ascii :=
  match s with
  | EmptyString => None
  | String c EmptyString => Some c
  | String _ r => last_char r
  end.

(** [uuid(prefix)]: in deterministic mode the decimal rendering of a
    counter that is then incremented; otherwise the prefix, completed by a
    dash, followed by freshly drawn digits. *)
Definition uuid (sch : Schema) (prefix : string) (tx : Tx) : string * Tx :=
  if DETERMINISTIC_UUID sch then
    (pretty (count tx),
     mkTx (nodes tx) (selection tx) (ops tx) (S (count tx)) (rng tx))
  else
    let prefix' :=
      match last_char prefix with
      | None => prefix
      | Some c => if bool_decide (c = "-"%char) then prefix
                  else (prefix +:+ "-")%string
      end in
    ((prefix' +:+ random_digits sch (rng tx))%string,
     mkTx (nodes tx) (selection tx) (ops tx) (count tx) (S (rng tx))).

(** ** model/Editing.js *)

Definition _isLowSurrogate (charCode : option Z) : bool :=
  match charCode with
  | Some c => (c >=? 55296) && (c <=? 56319)
  | None => false
  end.

Definition _isHighSurrogate (charCode : option Z) : bool :=
  match charCode with
  | Some c => (c >=? 56320) && (c <=? 57343)
  | None => false
  end.

(** The branches of the editing engine that rest on list nodes and on
    [selectionHelpers], neither of which is part of the sources at hand:
    the cursor helpers, the verbs for node and container selections, and
    the merges and breaks that involve a list. The functions below are
    verified for every choice of them. *)
Record Collaborators := mkCollaborators {
  setCursor : Tx -> option string -> Path -> NodeMode -> Result Tx;
  selectNode : Tx -> option string -> Path -> Result Tx;
  toggleList : Tx -> Result Tx;
  _deleteNodeSelection : Tx -> Selection -> Direction -> Result Tx;
  _deleteContainerSelection : Tx -> Selection -> Result Tx;
  _deletePropertySelection : Tx -> Selection -> Result Tx;
  _breakListNode : Tx -> string -> Coordinate -> Path -> Result Tx;
  breakNodeSelection : Tx -> Selection -> Result Tx;
  breakContainerSelection : Tx -> Selection -> Result Tx;
  mergeWithinList :
    Tx -> string -> Coordinate -> Direction -> Path -> option (Result Tx);
  mergeTextWithList : Tx -> Path -> Z -> Direction -> Result Tx;
  mergeListFirst : Tx -> Path -> Z -> Direction -> Result Tx
}.

Definition isLeft (d : Direction) : bool :=
  match d with DirLeft => true | DirRight => false end.

Definition isRight (d : Direction) : bool :=
  match d with DirLeft => false | DirRight => true end.

Module Editing.
Section WithSchema.

Context (sch : Schema) (env : Collaborators).

(** The body of [annos.forEach(...)] in [_insertText]. *)
Definition reposition_anno (startOffset endOffset L : Z) (typeover : bool)
  (tx : Tx) (anno : string * Node) : Result Tx :=
  match data anno.2 with
  | AnnotationData st en =>
      let annoStart := offset st in
      let annoEnd := offset en in
      if annoEnd <? startOffset then Ok tx
      else if annoStart >=? endOffset then
        tx1 <- update_shift tx anno.1 AtStart (startOffset - endOffset + L) ;;;
        update_shift tx1 anno.1 AtEnd (startOffset - endOffset + L)
      else if (annoStart >=? startOffset) && (annoEnd <? endOffset)
              || isInlineNode sch (type anno.2)
                 && (annoStart >=? startOffset) && (annoEnd <=? endOffset)
      then delete_node tx anno.1
      else if (annoStart >=? startOffset) && (annoEnd >=? endOffset) then
        tx1 <- (if (annoStart >? startOffset) || negb typeover
                then update_shift tx anno.1 AtStart
                       (startOffset - annoStart + L)
                else Ok tx) ;;;
        update_shift tx1 anno.1 AtEnd (startOffset - endOffset + L)
      else if (annoStart <? startOffset) && (annoEnd <? endOffset) then
        update_shift tx anno.1 AtEnd (startOffset - annoEnd + L)
      else if (annoEnd =? startOffset)
              && negb (autoExpandRight sch (type anno.2))
      then Ok tx
      else if (annoStart <? startOffset) && (annoEnd >=? endOffset) then
        if isInlineNode sch (type anno.2) then Ok tx
        else update_shift tx anno.1 AtEnd (startOffset - endOffset + L)
      else Ok tx
  | _ => Ok tx
  end.

Definition _insertText (tx : Tx) (sel : Selection) (text : Text)
  : Result Tx :=
  start <- of_option (sel_start sel) "TypeError" ;;;
  end_ <- of_option (sel_end sel) "TypeError" ;;;
  if negb (bool_decide (path start = path end_))
  then Err "Unsupported state: range should be on one property"
  else
    let p := path start in
    let startOffset := offset start in
    let endOffset := offset end_ in
    let typeover := negb (isCollapsed sel) in
    let L := text_length text in
    tx1 <- (if typeover
            then update_text_delete tx p startOffset endOffset
            else Ok tx) ;;;
    tx2 <- update_text_insert tx1 p startOffset text ;;;
    tx3 <- forEach (reposition_anno startOffset endOffset L typeover)
             (getAnnotations tx2 p) tx2 ;;;
    let offset_ := startOffset + text_length text in
    Ok (setSelection tx3 (cursorAt (path start) offset_ (sel_containerPath sel))).

(** [tx.create(data)] for data without an id: the document allocates
    one. *)
Definition create_fresh (tx : Tx) (n : Node) : string * Tx :=
  let '(i, tx1) := uuid sch (type n) tx in (i, create tx1 i n).

Definition _breakTextNode (tx : Tx) (nodeId : string) (coor : Coordinate)
  (containerPath : Path) : Result Tx :=
  node <- of_option (nodes tx !! nodeId) "NotFoundError" ;;;
  let p := path coor in
  let offset_ := offset coor in
  nodePos <- getContainerPosition tx containerPath nodeId ;;;
  text <- of_option (getText tx (getPath nodeId)) "TypeError" ;;;
  if offset_ =? 0 then
    let '(newId, tx1) := create_fresh tx (mkNode (type node) (TextData [])) in
    tx2 <- insertAt tx1 containerPath nodePos newId ;;;
    Ok (setSelection tx2 (cursorAt p 0 (Some containerPath)))
  else
    let '(newId, tx1) := uuid sch (type node) tx in
    newType <- (if offset_ =? text_length text
                then of_option (defaultTextType sch containerPath) "SchemaError"
                else Ok (type node)) ;;;
    let newNodeData := mkNode newType (TextData (substring_from text offset_)) in
    let tx2 := create tx1 newId newNodeData in
    tx3 <- (if offset_ <? text_length text then
              tx' <- transferAnnotations tx2 p offset_ (getPath newId) 0 ;;;
              update_text_delete tx' p offset_ (text_length text)
            else Ok tx2) ;;;
    tx4 <- insertAt tx3 containerPath (nodePos + 1) newId ;;;
    Ok (setSelection tx4 (cursorAt (getPath newId) 0 (Some containerPath))).

Definition _breakNode (tx : Tx) (nodeId : string) (coor : Coordinate)
  (containerPath : Path) : Result Tx :=
  rootId <- getContainerRoot tx containerPath nodeId ;;;
  node <- of_option (nodes tx !! rootId) "NotFoundError" ;;;
  if isText node then _breakTextNode tx rootId coor containerPath
  else if isList node then _breakListNode env tx rootId coor containerPath
  else Ok tx.

(** [break(tx)]. The branches for node and container selections only
    involve collaborators. *)
Definition break (tx : Tx) : Result Tx :=
  let sel := selection tx in
  if isNodeSelection sel then breakNodeSelection env tx sel
  else if isCustomSelection sel then Ok tx
  else if isCollapsed sel || isPropertySelection sel then
    let containerPath := sel_containerPath sel in
    tx1 <- (if negb (isCollapsed sel) then
              tx' <- _deletePropertySelection env tx sel ;;;
              Ok (setSelection tx'
                    match sel_start sel with
                    | Some c => cursorAt (path c) (offset c) containerPath
                    | None => sel
                    end)
            else Ok tx) ;;;
    match containerPath with
    | Some cp =>
        start <- of_option (sel_start sel) "TypeError" ;;;
        nodeId <- of_option (head (path start)) "NotFoundError" ;;;
        _breakNode tx1 nodeId start cp
    | None => Ok tx1
    end
  else if isContainerSelection sel then breakContainerSelection env tx sel
  else Ok tx.

Definition nth_id (l : list string) (pos : Z) : option string :=
  if pos <? 0 then None else l !! Z.to_nat pos.

Definition isEmptyText (t : Text) : bool := text_length t =? 0.

Definition _mergeNodes (tx : Tx) (containerPath : Path) (pos : Z)
  (direction : Direction) : Result Tx :=
  nodeIds <- of_option (container_ids tx containerPath) "NotFoundError" ;;;
  firstId <- of_option (nth_id nodeIds pos) "TypeError" ;;;
  first <- of_option (nodes tx !! firstId) "TypeError" ;;;
  let secondPos := pos + 1 in
  let secondId := nth_id nodeIds secondPos in
  let second := secondId ≫= fun i => nodes tx !! i in
  let picked := if isLeft direction then Some firstId else secondId in
  match data first with
  | TextData firstText =>
      if isEmptyText firstText then
        tx1 <- removeAt tx containerPath pos ;;;
        tx2 <- deepDeleteNode tx1 firstId ;;;
        setCursor env tx2 secondId containerPath Before
      else
        let targetPath := getPath firstId in
        let targetLength := text_length firstText in
        sourceId <- of_option secondId "TypeError" ;;;
        source <- of_option second "TypeError" ;;;
        match data source with
        | TextData sourceText =>
            let sourcePath := getPath sourceId in
            tx1 <- removeAt tx containerPath secondPos ;;;
            tx2 <- update_text_insert tx1 targetPath targetLength sourceText ;;;
            tx3 <- transferAnnotations tx2 sourcePath 0 targetPath targetLength ;;;
            tx4 <- deepDeleteNode tx3 sourceId ;;;
            Ok (setSelection tx4
                  (cursorAt targetPath targetLength (Some containerPath)))
        | ListData _ => mergeTextWithList env tx containerPath pos direction
        | _ => selectNode env tx picked containerPath
        end
  | ListData _ => mergeListFirst env tx containerPath pos direction
  | _ =>
      match second with
      | Some (mkNode _ (TextData secondText)) =>
          if isEmptyText secondText then
            tx1 <- removeAt tx containerPath secondPos ;;;
            i <- of_option secondId "TypeError" ;;;
            tx2 <- deepDeleteNode tx1 i ;;;
            setCursor env tx2 (Some firstId) containerPath After
          else selectNode env tx picked containerPath
      | Some _ => selectNode env tx picked containerPath
      | None => Err "TypeError"
      end
  end.

Definition _merge (tx : Tx) (nodeId : string) (coor : Coordinate)
  (direction : Direction) (containerPath : Path) : Result Tx :=
  node <- of_option (nodes tx !! nodeId) "TypeError" ;;;
  match (if isList node
         then mergeWithinList env tx nodeId coor direction containerPath
         else None) with
  | Some r => r
  | None =>
      nodeIds <- of_option (container_ids tx containerPath) "NotFoundError" ;;;
      nodePos <- getContainerPosition tx containerPath nodeId ;;;
      if isLeft direction && (nodePos >? 0)
      then _mergeNodes tx containerPath (nodePos - 1) direction
      else if isRight direction && (nodePos <? Z.of_nat (length nodeIds) - 1)
      then _mergeNodes tx containerPath nodePos direction
      else Ok tx
  end.

(** [delete(tx, direction)]. *)
Definition delete (tx : Tx) (direction : Direction) : Result Tx :=
  let sel := selection tx in
  if isNodeSelection sel then _deleteNodeSelection env tx sel direction
  else if isCustomSelection sel then Ok tx
  else if isCollapsed sel then
    start <- of_option (sel_start sel) "TypeError" ;;;
    let p := path start in
    let containerPath := sel_containerPath sel in
    text <- of_option (getText tx p) "TypeError" ;;;
    let offset_ := offset start in
    let atBoundary :=
      (offset_ =? 0) && isLeft direction
      || (offset_ =? text_length text) && isRight direction in
    let needsMerge := if atBoundary then containerPath else None in
    match needsMerge with
    | Some cp =>
        nodeId <- of_option (head p) "TypeError" ;;;
        rootId <- getContainerRoot tx cp nodeId ;;;
        root <- of_option (nodes tx !! rootId) "TypeError" ;;;
        if isList root && (offset_ =? 0) && isLeft direction
        then toggleList env tx
        else _merge tx rootId start direction cp
    | None =>
        if atBoundary then Ok tx
        else
          let startOffset := if isLeft direction then offset_ - 1 else offset_ in
          let endOffset := startOffset + 1 in
          let charCode := charCodeAt text startOffset in
          let '(startOffset', endOffset') :=
            if _isLowSurrogate charCode then
              let nextCharCode := charCodeAt text endOffset in
              if _isHighSurrogate nextCharCode
              then (startOffset, endOffset + 1)
              else (startOffset, endOffset)
            else if _isHighSurrogate charCode
            then (startOffset - 1, endOffset)
            else (startOffset, endOffset) in
          tx1 <- deleteTextRange sch tx (mkCoor p startOffset')
                   (mkCoor p endOffset') ;;;
          Ok (setSelection tx1 (cursorAt p startOffset' (sel_containerPath sel)))
    end
  else if isPropertySelection sel then
    start <- of_option (sel_start sel) "TypeError" ;;;
    end_ <- of_option (sel_end sel) "TypeError" ;;;
    tx1 <- deleteTextRange sch tx start end_ ;;;
    Ok (setSelection tx1
          (cursorAt (path start) (offset start) (sel_containerPath sel)))
  else if isContainerSelection sel then _deleteContainerSelection env tx sel
  else Ok tx.

End WithSchema.
End Editing.

(** ** A sample document

    The article of the test-suite: paragraphs in a body container, with
    two [strong] annotations on the first paragraph. Characters are given
    by their code units; the third paragraph holds a surrogate pair
    (U+1F600) between two letters. *)

Definition sample_schema : Schema :=
  mkSchema
    (fun ty => bool_decide (ty = "inline-node"%string))
    (fun ty => bool_decide (ty = "strong"%string))
    (fun _ => Some "paragraph"%string)
    true
    (fun _ => "00000000000000000000000000000000"%string).

Definition body : Path := ["body"; "nodes"]%string.

(** ["abcdefgh"] *)
Definition abcdefgh : Text := [97; 98; 99; 100; 101; 102; 103; 104].

Definition strong (p : Path) (a b : Z) : Node :=
  mkNode "strong" (AnnotationData (mkCoor p a) (mkCoor p b)).

Definition sample_nodes : gmap string Node :=
  list_to_map
    [("body"%string, mkNode "container" (ContainerData ["p1"; "p2"; "p3"]%string));
     ("p1"%string, mkNode "paragraph" (TextData abcdefgh));
     ("p2"%string, mkNode "paragraph" (TextData [105; 106; 107]));
     ("p3"%string, mkNode "paragraph" (TextData [97; 55357; 56832; 98]));
     ("a1"%string, strong (getPath "p1") 1 2);
     ("a2"%string, strong (getPath "p1") 4 6);
     ("a3"%string, strong (getPath "p2") 1 3)].

Definition sample_tx (sel : Selection) : Tx := mkTx sample_nodes sel [] 0 0.

(** A link, whose type does not expand to the right, over ["bc"] of the
    first paragraph of the sample document. *)
Definition link (p : Path) (a b : Z) : Node :=
  mkNode "link" (AnnotationData (mkCoor p a) (mkCoor p b)).

Definition linked_tx : Tx :=
  mkTx (<["l1"%string := link (getPath "p1") 1 3]> sample_nodes)
    NullSelection [] 0 0.

(** ** Loops over annotations *)

(** A loop whose body rewrites only the node it is given treats every
    element of a duplicate-free list independently. *)
Definition pointwise (f : Tx -> string * Node -> Result Tx)
  (post : string -> Node -> option Node) : Prop :=
  forall tx i n,
    nodes tx !! i = Some n ->
    exists tx',
      f tx (i, n) = Ok tx' /\
      nodes tx' !! i = post i n /\
      (forall j, j <> i -> nodes tx' !! j = nodes tx !! j).

(** ** Well-formed UTF-16 text *)

(** Lead surrogates are the code units U+D800..U+DBFF, trail surrogates
    U+DC00..U+DFFF. *)
Definition is_lead_surrogate (c : Z) : bool := (55296 <=? c) && (c <=? 56319).

Definition is_trail_surrogate (c : Z) : bool := (56320 <=? c) && (c <=? 57343).

(** A text is well formed when every lead surrogate is immediately followed
    by a trail surrogate and every trail surrogate is preceded by a lead
    one: it contains no unpaired surrogate. *)
Fixpoint well_formed (t : Text) : bool :=
  match t with
  | [] => true
  | c :: r =>
      if is_lead_surrogate c then
        match r with
        | d :: r' => is_trail_surrogate d && well_formed r'
        | [] => false
        end
      else if is_trail_surrogate c then false
      else well_formed r
  end.

(** Collaborators that do nothing, for running the engine on the sample
    document, which has no lists. *)
Definition idle : Collaborators :=
  mkCollaborators (fun tx _ _ _ => Ok tx) (fun tx _ _ => Ok tx)
    (fun tx => Ok tx) (fun tx _ _ => Ok tx) (fun tx _ => Ok tx)
    (fun tx _ => Ok tx) (fun tx _ _ _ => Ok tx) (fun tx _ => Ok tx)
    (fun tx _ => Ok tx) (fun _ _ _ _ _ => None) (fun tx _ _ _ => Ok tx)
    (fun tx _ _ _ => Ok tx).

(** ** Kinds of recorded operations *)

Definition is_set_coordinate (op : Op) : Prop :=
  match op with OpSetCoordinate _ _ _ => True | _ => False end.

Definition is_delete_op (op : Op) : Prop :=
  match op with OpDelete _ _ => True | _ => False end.

(** ** Document order of coordinates *)

Definition lists_node (i : string) (kv : string * Node) : bool :=
  match data kv.2 with
  | ContainerData l => bool_decide (i ∈ l)
  | _ => false
  end.

(** Modelled from the spec: the structural position of a path, the index
    of [path[0]] in the container that lists it (section 4.2). *)
Definition position (tx : Tx) (p : Path) : Z :=
  match head p with
  | Some i =>
      match list_find (fun kv => lists_node i kv = true) (map_to_list (nodes tx)) with
      | Some (_, kv) =>
          match index_of i (children kv.2) with
          | Some n => Z.of_nat n
          | None => 0
          end
      | None => 0
      end
  | None => 0
  end.

(** Modelled from the spec: two coordinates compare by structural position
    first, then by offset (section 4.2). *)
Definition coor_ltb (tx : Tx) (c1 c2 : Coordinate) : bool :=
  (position tx (path c1) <? position tx (path c2))
  || (position tx (path c1) =? position tx (path c2)) && (offset c1 <? offset c2).

Definition coor_leb (tx : Tx) (c1 c2 : Coordinate) : bool :=
  negb (coor_ltb tx c2 c1).

Definition anno_start (n : Node) : Coordinate :=
  match data n with
  | AnnotationData st _ => st
  | _ => mkCoor [] 0
  end.

Definition anno_end (n : Node) : Coordinate :=
  match data n with
  | AnnotationData _ en => en
  | _ => mkCoor [] 0
  end.

(** ** annotationHelpers.fuseAnnotation *)

(** The annotation with the earliest start; of two that start together the
    one met first is kept. *)
Fixpoint earliest (tx : Tx) (best : string * Node)
  (rest : list (string * Node)) : string * Node :=
  match rest with
  | [] => best
  | a :: rest' =>
      if coor_ltb tx (anno_start a.2) (anno_start best.2)
      then earliest tx a rest'
      else earliest tx best rest'
  end.

(** The latest end among the annotations. *)
Fixpoint latest_end (tx : Tx) (best : Coordinate)
  (rest : list (string * Node)) : Coordinate :=
  match rest with
  | [] => best
  | a :: rest' =>
      if coor_ltb tx best (anno_end a.2)
      then latest_end tx (anno_end a.2) rest'
      else latest_end tx best rest'
  end.

Definition delete_unless (keep : string) (tx : Tx) (a : string * Node)
  : Result Tx :=
  if bool_decide (a.1 = keep) then Ok tx else delete_node tx a.1.

(** Modelled from the spec: [fuseAnnotation(tx, annos)] of
    [annotationHelpers], which is not part of the sources at hand
    (section 4.3): given at least two annotations it collapses them into the
    earliest-starting one, extends the end of that one to the latest end
    among them, and deletes the rest; on equal starts the first in input
    order survives. *)
Definition fuseAnnotation (tx : Tx) (annos : list (string * Node))
  : Result Tx :=
  match annos with
  | first :: (_ :: _) as rest =>
      let survivor := earliest tx first rest in
      let e := latest_end tx (anno_end first.2) rest in
      tx1 <- set_coordinate tx survivor.1 AtEnd e ;;;
      forEach (delete_unless survivor.1) annos tx1
  | _ => Err "fuseAnnotation(): at least two annotations are necessary."
  end.

(** [executeFuse] of [ui/AnnotationCommand.js]: the precondition [canFuse]
    is checked, the annotations of the command's type under the selection
    are fused, and the first of them is reported as the result. *)
Definition canFuse (annos : list (string * Node)) (sel : Selection) : bool :=
  (2 <=? Z.of_nat (length annos)) && negb (isCollapsed sel).

Definition executeFuse (tx : Tx) (annos : list (string * Node))
  : Result (Tx * option string) :=
  if negb (canFuse annos (selection tx))
  then Err "AnnotationCommand: can't execute command for selection"
  else
    tx' <- fuseAnnotation tx annos ;;;
    Ok (tx', fst <$> head annos).

(** ** model/DocumentSession.js *)

Module DocumentSession.

(** A [DocumentChange]: the operations it groups, the ids it marks as
    updated, its timestamp once committed, and its [info.action]. *)
Record DocumentChange := mkChange {
  change_ops : list Op;
  updated : list string;
  timestamp : option Z;
  action : string
}.

(** Who is told about a change: a listener of the document's
    ['document:changed'] event, or of the session's ['change'] event. *)
Inductive Delivery :=
| DocumentChanged (listener : string) (change : DocumentChange)
| SessionChange (listener : string) (change : DocumentChange).

Section WithDocument.

(** The document is a collaborator: [D] is its state, [_apply] applies the
    operations of a change and may fail, [setState] merges volatile state
    into the nodes that exist. *)
Context {D : Type}.
Context (_apply : D -> DocumentChange -> Result D).
Context (setState : D -> list (string * string) -> D * list string).

(** The session, together with the listeners registered on its document
    before and after the session registered [_onDocumentChange] in its
    constructor, the listeners of its own ['change'] event, and the log of
    what has been delivered. *)
Record Session := mkSession {
  _document : D;
  _history : list DocumentChange;
  listenersBefore : list string;
  listenersAfter : list string;
  changeListeners : list string;
  delivered : list Delivery
}.

Definition _onDocumentChange (s : Session) (change : option DocumentChange)
  : Session :=
  match change with
  | Some c =>
      if (0 <? Z.of_nat (length (change_ops c)))
      then mkSession (_document s) (_history s ++ [c]) (listenersBefore s)
             (listenersAfter s) (changeListeners s) (delivered s)
      else s
  | None => s
  end.

Definition deliver (s : Session) (ds : list Delivery) : Session :=
  mkSession (_document s) (_history s) (listenersBefore s) (listenersAfter s)
    (changeListeners s) (delivered s ++ ds).

(** Modelled from the spec: [doc._notifyChangeListeners(change, info)]
    delivers the change synchronously to every listener of the document in
    registration order (section 6, change stream); the session's
    [_onDocumentChange] is one of them. *)
Definition _notifyChangeListeners (s : Session) (c : DocumentChange) : Session :=
  let s1 := deliver s ((fun l => DocumentChanged l c) <$> listenersBefore s) in
  let s2 := _onDocumentChange s1 (Some c) in
  deliver s2 ((fun l => DocumentChanged l c) <$> listenersAfter s).

(** [this.emit('change', change, info)]. *)
Definition emit_change (s : Session) (c : DocumentChange) : Session :=
  deliver s ((fun l => SessionChange l c) <$> changeListeners s).

Definition _applyChange (s : Session) (change : option DocumentChange)
  : Result Session :=
  match change with
  | None => Err "Invalid change"
  | Some c =>
      d <- _apply (_document s) c ;;;
      let s1 := mkSession d (_history s) (listenersBefore s) (listenersAfter s)
                  (changeListeners s) (delivered s) in
      let s2 := _notifyChangeListeners s1 c in
      Ok (emit_change s2 c)
  end.

Definition stamp (c : DocumentChange) (now : Z) : DocumentChange :=
  mkChange (change_ops c) (updated c) (Some now) (action c).

(** [_commitChange(change, info)], with the reading of the clock. *)
Definition _commitChange (now : Z) (s : Session)
  (change : option DocumentChange) : Result Session :=
  match change with
  | None => Err "TypeError"
  | Some c => _applyChange s (Some (stamp c now))
  end.

(** [updateNodeStates(tuples, options)]: a pseudo change without
    operations that marks the nodes it touched. *)
Definition updateNodeStates (s : Session) (tuples : list (string * string))
  (silent : bool) : Session :=
  let '(d, touched) := setState (_document s) tuples in
  let change := mkChange [] touched None "node-state-update" in
  let s1 := mkSession d (_history s) (listenersBefore s) (listenersAfter s)
              (changeListeners s) (delivered s) in
  if silent then s1
  else emit_change (_notifyChangeListeners s1 change) change.

(** A sequence of commits, each with its reading of the clock; it stops at
    the first that fails. *)
Fixpoint commitAll (s : Session) (cs : list (DocumentChange * Z))
  : Result Session :=
  match cs with
  | [] => Ok s
  | (c, now) :: cs' =>
      s' <- _commitChange now s (Some c) ;;; commitAll s' cs'
  end.

(** The changes of a sequence of commits that carry operations. *)
Definition recorded (cs : list (DocumentChange * Z)) : list DocumentChange :=
  filter (fun c => change_ops c <> []) ((fun cn => stamp cn.1 cn.2) <$> cs).

End WithDocument.

End DocumentSession.

(** What one commit of [c] delivers in a session with the listeners of
    [s]: the change once to every listener, those of the document first. *)
Definition deliveries_of {D : Type} (s : DocumentSession.Session (D := D))
  (c : DocumentSession.DocumentChange) : list DocumentSession.Delivery :=
  ((fun l => DocumentSession.DocumentChanged l c) <$> DocumentSession.listenersBefore s)
  ++ ((fun l => DocumentSession.DocumentChanged l c) <$> DocumentSession.listenersAfter s)
  ++ ((fun l => DocumentSession.SessionChange l c) <$> DocumentSession.changeListeners s).

(** A session on a document without content, with one listener of each
    kind, and two changes: one that records an operation and one that
    records none (a transaction that only moved the cursor). *)
Definition sample_session : DocumentSession.Session (D := unit) :=
  DocumentSession.mkSession tt [] ["index"%string] ["view"%string]
    ["editor"%string] [].

Definition typing_change : DocumentSession.DocumentChange :=
  DocumentSession.mkChange [OpTextInsert (getPath "p1") 3 [120]] [] None "type".

Definition cursor_change : DocumentSession.DocumentChange :=
  DocumentSession.mkChange [] [] None "select".

Definition apply_nothing (d : unit) (c : DocumentSession.DocumentChange)
  : Result unit := Ok d.

(** ** Component: [_render] *)

(** A thrown JavaScript error object: the [name] its constructor gives it
    and its [message]. *)
Record JsError := mkJsError {
  name : string;
  message : string
}.

(** [new Error(msg)], the only kind of error the sources construct: its
    [name] is ["Error"]. *)
Definition new_Error (msg : string) : JsError := mkJsError "Error" msg.


Module Component.

(** The part of a component that rendering touches: the busy flag
    [__isRendering__] (absent is [false]) and what has been painted. *)
Record Comp := mkComp {
  __isRendering__ : bool;
  paints : nat
}.

(** The state a call leaves behind, and the error it threw, if any. *)
Definition Outcome : Type := Comp * option JsError.

Definition set_rendering (c : Comp) (b : bool) : Comp := mkComp b (paints c).

(** [_render(oldProps, oldState)]; [engine] stands for
    [this.renderingEngine._render(this, oldProps, oldState)]. The [finally]
    block runs whether the engine returns or throws. *)
Definition _render (engine : Comp -> Outcome) (c : Comp) : Outcome :=
  if __isRendering__ c
  then (c, Some (new_Error "Component is rendering already."))
  else
    let c1 := set_rendering c true in
    let '(c2, thrown) := engine c1 in
    (set_rendering c2 false, thrown).

(** What a rendering engine may do with the component while it renders:
    return, throw, paint, or call [_render] on the same component again
    (as a handler that sets state during rendering does) and go on if that
    call returns. *)
Inductive Work :=
| Return
| Throw (e : JsError)
| Paint (next : Work)
| Rerender (inner : Work) (next : Work).

Fixpoint run (w : Work) (c : Comp) : Outcome :=
  match w with
  | Return => (c, None)
  | Throw e => (c, Some e)
  | Paint next => run next (mkComp (__isRendering__ c) (S (paints c)))
  | Rerender inner next =>
      match _render (run inner) c with
      | (c', None) => run next c'
      | (c', Some e) => (c', Some e)
      end
  end.

End Component.

Module Transaction.

(** Modelled from the spec: the transaction runner
    ([editorSession.transaction(fn)], which [AnnotationCommand] calls) is
    not under src/. Section 5: exactly one transaction may be open at a
    time, and a nested attempt fails with [IllegalStateError] ("already
    rendering/transacting"). Section 9: the runner disallows re-entrancy
    with a busy flag, runs the function, and commits or aborts on every
    exit path, errors included; nothing that was applied is rolled back.

    The part of a session that this touches: the busy flag, the number of
    operations applied so far and the number of changes committed. *)
Record Session := mkSession {
  isTransacting : bool;
  applied : nat;
  committed : nat
}.

Definition Outcome : Type := Session * option JsError.

Definition set_transacting (s : Session) (b : bool) : Session :=
  mkSession b (applied s) (committed s).

Definition commit (s : Session) : Session :=
  mkSession (isTransacting s) (applied s) (S (committed s)).

(** Modelled from the spec: [transaction(fn)], see above. *)
Definition transaction (fn : Session -> Outcome) (s : Session) : Outcome :=
  if isTransacting s
  then (s, Some (mkJsError "IllegalStateError" "already rendering/transacting"))
  else
    let s1 := set_transacting s true in
    match fn s1 with
    | (s2, None) => (commit (set_transacting s2 false), None)
    | (s2, Some e) => (set_transacting s2 false, Some e)
    end.

(** What the function of a transaction may do: return, throw, apply an
    operation, or start a transaction on the same session and go on if that
    returns. *)
Inductive Work :=
| Return
| Throw (e : JsError)
| Apply (next : Work)
| Nested (inner : Work) (next : Work).

Fixpoint run (w : Work) (s : Session) : Outcome :=
  match w with
  | Return => (s, None)
  | Throw e => (s, Some e)
  | Apply next =>
      run next (mkSession (isTransacting s) (S (applied s)) (committed s))
  | Nested inner next =>
      match transaction (run inner) s with
      | (s', None) => run next s'
      | (s', Some e) => (s', Some e)
      end
  end.

End Transaction.

(** ** model/DocumentIndex.js and the document that drives it *)

Module DocumentIndex.

Inductive Value :=
| VNull
| VStr (s : string)
| VIds (l : list string).

(** A node as the index callbacks receive it. *)
Record DNode := mkDNode {
  id : string;
  type : string;
  props : gmap string Value
}.

(** The calls a spied index records, in the order they are made. *)
Inductive Call :=
| CClear
| CSelect (n : DNode)
| CCreate (n : DNode)
| CDelete (n : DNode)
| CUpdate (n : DNode) (p : Path) (newValue oldValue : Value).

Definition is_create (c : Call) : bool :=
  match c with CCreate _ => true | _ => false end.

Definition is_select (c : Call) : bool :=
  match c with CSelect _ => true | _ => false end.

(** [spy.callCount] of one method. *)
Definition callCount (which : Call -> bool) (calls : list Call) : nat :=
  length (filter (fun c => which c = true) calls).

(** An index: its membership predicate and the calls made to it. *)
Record Index := mkIndex {
  select : DNode -> bool;
  calls : list Call
}.

Record Document := mkDocument {
  nodes : gmap string DNode;
  indices : list (string * Index)
}.

Definition called (ix : Index) (cs : list Call) : Index :=
  mkIndex (select ix) (calls ix ++ cs).

(** One notification of an index about a node: [select] is asked, and the
    callback is made if the node matches. *)
Definition notify (callback : DNode -> Call) (n : DNode) (ix : Index) : Index :=
  called ix (CSelect n :: if select ix n then [callback n] else []).

Definition notify_all (callback : DNode -> Call) (n : DNode) (d : Document)
  : Document :=
  mkDocument (nodes d) (prod_map (fun x => x) (notify callback n) <$> indices d).

(** [doc.getNodes()] in enumeration order. *)
Definition getNodes (d : Document) : list DNode := (map_to_list (nodes d)).*2.

(** Modelled from the spec: [doc.addIndex(name, index)] clears the index
    and warms it up by calling [create] for every currently matching node
    exactly once, in enumeration order (sections 3 and 4.6). *)
Definition addIndex (d : Document) (name : string) (ix : Index) : Document :=
  let warmed := foldl (fun acc n => notify CCreate n acc) (called ix [CClear])
                  (getNodes d) in
  mkDocument (nodes d) (indices d ++ [(name, warmed)]).

(** [doc.getIndex(name)]. *)
Definition getIndex (d : Document) (name : string) : option Index :=
  (fun r => r.2.2) <$> list_find (fun x => x.1 = name) (indices d).

(** Modelled from the spec: [doc.create(nodeData)] installs the node and
    notifies every index (section 4.1). *)
Definition create (d : Document) (n : DNode) : Document :=
  notify_all CCreate n (mkDocument (<[id n := n]> (nodes d)) (indices d)).

(** Modelled from the spec: [doc.delete(id)] removes the node, failing with
    [NotFoundError] if it is absent, and notifies every index
    (section 4.1). *)
Definition delete (d : Document) (i : string) : Result Document :=
  match nodes d !! i with
  | Some n =>
      Ok (notify_all CDelete n (mkDocument (base.delete i (nodes d)) (indices d)))
  | None => Err "NotFoundError"
  end.

Definition get_prop (n : DNode) (prop : string) : Value :=
  default VNull (props n !! prop).

Definition set_prop (n : DNode) (prop : string) (v : Value) : DNode :=
  mkDNode (id n) (type n) (<[prop := v]> (props n)).

(** Modelled from the spec: [doc.set(path, value)] mutates one property
    and notifies every index of the update with the node, the path, the
    new value and the old value (section 4.1; the order of the two values
    is the one the test-suite asserts). *)
Definition set (d : Document) (p : Path) (v : Value) : Result Document :=
  match p with
  | [i; prop] =>
      match nodes d !! i with
      | Some n =>
          let old := get_prop n prop in
          let n' := set_prop n prop v in
          Ok (notify_all (fun m => CUpdate m p v old) n'
                (mkDocument (<[i := n']> (nodes d)) (indices d)))
      | None => Err "NotFoundError"
      end
  | _ => Err "NotFoundError"
  end.

(** The typed diff operations on an array property. *)
Inductive Diff :=
| ArrayInsert (pos : nat) (v : string)
| ArrayDelete (pos : nat).

Definition apply_diff (v : Value) (diff : Diff) : Result Value :=
  match v, diff with
  | VIds l, ArrayInsert pos x =>
      if decide (pos <= length l)%nat
      then Ok (VIds (take pos l ++ x :: drop pos l))
      else Err "Index out of range"
  | VIds l, ArrayDelete pos =>
      if decide (pos < length l)%nat
      then Ok (VIds (take pos l ++ drop (S pos) l))
      else Err "Index out of range"
  | _, _ => Err "Illegal operation"
  end.

(** Modelled from the spec: [doc.update(path, diffOp)] applies a typed diff
    to one property and notifies every index like [set] (section 4.1). *)
Definition update (d : Document) (p : Path) (diff : Diff) : Result Document :=
  match p with
  | [i; prop] =>
      match nodes d !! i with
      | Some n =>
          let old := get_prop n prop in
          v <- apply_diff old diff ;;;
          let n' := set_prop n prop v in
          Ok (notify_all (fun m => CUpdate m p v old) n'
                (mkDocument (<[i := n']> (nodes d)) (indices d)))
      | None => Err "NotFoundError"
      end
  | _ => Err "NotFoundError"
  end.

(** The calls one warm-up makes for the nodes [l]. *)
Definition warm_up (sel : DNode -> bool) (l : list DNode) : list Call :=
  concat ((fun n => CSelect n :: if sel n then [CCreate n] else []) <$> l).

End DocumentIndex.

(** The article of the index test-suite: a body that lists four
    paragraphs, and no index yet. *)
Definition paragraph (i : string) : DocumentIndex.DNode :=
  DocumentIndex.mkDNode i "paragraph" ∅.

Definition sample_body : DocumentIndex.DNode :=
  DocumentIndex.mkDNode "body" "container"
    {[ "nodes"%string := DocumentIndex.VIds ["p1"; "p2"; "p3"; "p4"]%string ]}.

Definition sample_document : DocumentIndex.Document :=
  DocumentIndex.mkDocument
    (list_to_map
       [("body"%string, sample_body);
        ("p1"%string, paragraph "p1"); ("p2"%string, paragraph "p2");
        ("p3"%string, paragraph "p3"); ("p4"%string, paragraph "p4")])
    [].

(** ** Parent links and xpaths *)

Module ParentNode.

Import DocumentIndex.

(** The schema: which properties of a node type are owned references
    (declared with [CHILD] or [CHILDREN]). *)
Definition Owned := string -> string -> bool.

(** A reference value holds an id: it is that id, or lists it. *)
Definition holds (v : Value) (b : string) : bool :=
  match v with
  | VStr i => bool_decide (i = b)
  | VIds l => bool_decide (b ∈ l)
  | VNull => false
  end.

(** The slot of an array of references that holds the id. *)
Definition pos_in (v : Value) (b : string) : option nat :=
  match v with
  | VIds l => index_of b l
  | _ => None
  end.

Definition owning_prop (owned : Owned) (a : DNode) (b : string)
  (pv : string * Value) : bool :=
  owned (type a) pv.1 && holds pv.2 b.

(** The owned property of [a] whose current value holds [b], if any. *)
Definition owns (owned : Owned) (a : DNode) (b : string)
  : option (string * Value) :=
  snd <$> list_find (fun pv => owning_prop owned a b pv = true)
            (map_to_list (props a)).

(** Modelled from the spec: [node.getParent()]. The parent is derived, not
    stored: it is the node that owns a property (a single reference or a
    slot of an array of references) whose current value is the id of the
    node (section 3). *)
Definition getParent (owned : Owned) (doc : gmap string DNode) (b : string)
  : option DNode :=
  (fun r => r.2.2) <$>
    list_find (fun kv => bool_decide (is_Some (owns owned kv.2 b)) = true)
      (map_to_list doc).

(** [model/XPathNode.js] *)
#[local] Unset Elimination Schemes.
Inductive XPathNode :=
| mkXPathNode (xid xtype : string) (prev : option XPathNode)
    (property : option string) (pos : option nat).
#[local] Set Elimination Schemes.

(** [toJSON()]: the entry without its [prev] link. *)
Record XEntry := mkXEntry {
  entry_id : string;
  entry_type : string;
  entry_property : option string;
  entry_pos : option nat
}.

Definition toJSON (x : XPathNode) : XEntry :=
  match x with
  | mkXPathNode i ty _ property pos => mkXEntry i ty property pos
  end.

Fixpoint toArray (x : XPathNode) : list XEntry :=
  match x with
  | mkXPathNode _ _ (Some p) _ _ => toArray p ++ [toJSON x]
  | mkXPathNode _ _ None _ _ => [toJSON x]
  end.

(** Modelled from the spec: [node.getXpath()], the chain of the ancestors
    of a node, each link with the owning property and, in an array, the
    position (section 3). The recursion over the parents is bounded by the
    number of nodes. *)
Fixpoint xpath (fuel : nat) (owned : Owned) (doc : gmap string DNode)
  (n : DNode) : XPathNode :=
  match fuel with
  | O => mkXPathNode (id n) (type n) None None None
  | S fuel' =>
      match getParent owned doc (id n) with
      | Some a =>
          match owns owned a (id n) with
          | Some (prop, v) =>
              mkXPathNode (id n) (type n) (Some (xpath fuel' owned doc a))
                (Some prop) (pos_in v (id n))
          | None => mkXPathNode (id n) (type n) None None None
          end
      | None => mkXPathNode (id n) (type n) None None None
      end
  end.

Definition getXpath (owned : Owned) (doc : gmap string DNode) (n : DNode)
  : XPathNode :=
  xpath (size doc) owned doc n.

(** No node of the document other than [a] owns [b]. *)
Definition sole_owner (owned : Owned) (doc : gmap string DNode)
  (a b : string) : Prop :=
  forall a' n', doc !! a' = Some n' -> is_Some (owns owned n' b) -> a' = a.

(** Modelled from the spec: the mutations of the document that change
    reference properties, [create], [set] and [update] (section 4.1). *)
Definition create (doc : gmap string DNode) (n : DNode) : gmap string DNode :=
  <[id n := n]> doc.

Definition set (doc : gmap string DNode) (i prop : string) (v : Value)
  : gmap string DNode :=
  match doc !! i with
  | Some n => <[i := set_prop n prop v]> doc
  | None => doc
  end.

Definition update (doc : gmap string DNode) (i prop : string) (diff : Diff)
  : Result (gmap string DNode) :=
  match doc !! i with
  | Some n =>
      v <- apply_diff (get_prop n prop) diff ;;;
      Ok (<[i := set_prop n prop v]> doc)
  | None => Err "NotFoundError"
  end.

End ParentNode.

(** The documents of the parent test-suite: a [parent] node whose property
    [foo] is declared with [CHILD], holding the id of a [child] node. *)
Definition child_owned : ParentNode.Owned :=
  fun ty prop => bool_decide (ty = "parent"%string) && bool_decide (prop = "foo"%string).

Definition parent_a : DocumentIndex.DNode :=
  DocumentIndex.mkDNode "a" "parent" {[ "foo"%string := DocumentIndex.VStr "b" ]}.

Definition child_b : DocumentIndex.DNode :=
  DocumentIndex.mkDNode "b" "child" ∅.

Definition family : gmap string DocumentIndex.DNode :=
  ParentNode.create (ParentNode.create ∅ child_b) parent_a.

(** * Verification *)

(** ** Basic facts about the primitives *)

Lemma shift_coor_0 (c : Coordinate) : shift_coor c 0 = c.
Proof. destruct c as [p o]. unfold shift_coor. simpl. f_equal. lia. Qed.

Lemma update_shift_ok (tx : Tx) (i : string) (ep : Endpoint) (v : Z)
  (ty : string) (st en : Coordinate) :
  nodes tx !! i = Some (mkNode ty (AnnotationData st en)) ->
  update_shift tx i ep v =
  Ok (record
        (with_nodes tx
           (<[i := mkNode ty
                     match ep with
                     | AtStart => AnnotationData (shift_coor st v) en
                     | AtEnd => AnnotationData st (shift_coor en v)
                     end]> (nodes tx)))
        (OpShift i ep v)).
Proof. intros H. unfold update_shift. rewrite H. reflexivity. Qed.

Lemma delete_node_ok (tx : Tx) (i : string) (n : Node) :
  nodes tx !! i = Some n ->
  delete_node tx i =
  Ok (record (with_nodes tx (delete i (nodes tx))) (OpDelete i n)).
Proof. intros H. unfold delete_node. rewrite H. reflexivity. Qed.

Lemma text_at_Some (tx : Tx) (p : Path) (i ty : string) (t : Text) :
  text_at tx p = Some (i, ty, t) ->
  p = getPath i /\ nodes tx !! i = Some (mkNode ty (TextData t)).
Proof.
  unfold text_at. destruct p as [|i' [|prop [|? ?]]]; try discriminate.
  case_bool_decide; [|discriminate].
  destruct (nodes tx !! i') as [[ty' [t'| | | |]]|] eqn:E; try discriminate.
  intros [= -> -> ->]. subst prop. split; [reflexivity|assumption].
Qed.

Lemma getText_text_at (tx : Tx) (p : Path) (t : Text) :
  getText tx p = Some t -> exists i ty, text_at tx p = Some (i, ty, t).
Proof.
  unfold getText. destruct (text_at tx p) as [[[i ty] t']|]; [|discriminate].
  intros [= ->]. eauto.
Qed.

Lemma text_at_getPath (tx : Tx) (i ty : string) (t : Text) :
  nodes tx !! i = Some (mkNode ty (TextData t)) ->
  text_at tx (getPath i) = Some (i, ty, t).
Proof.
  intros H. unfold text_at, getPath. rewrite bool_decide_eq_true_2 by reflexivity.
  rewrite H. reflexivity.
Qed.

(** ** The repositioning of one annotation *)

Lemma reposition_anno_spec (sch : Schema) (s e L : Z) (typeover : bool) :
  pointwise (Editing.reposition_anno sch s e L typeover)
    (fun _ n => repositioned sch typeover s e L n).
Proof.
  intros tx i n Hn. destruct n as [ty d].
  unfold Editing.reposition_anno, repositioned, geometric_relation. simpl.
  destruct d as [t|st en|l|l|]; try solve [exists tx; auto].
  rewrite !Z.geb_leb, !Z.gtb_ltb.
  set (a := offset st). set (b := offset en).
  pose proof (fun v tx0 st0 en0 => update_shift_ok tx0 i AtStart v ty st0 en0) as Hs.
  pose proof (fun v tx0 st0 en0 => update_shift_ok tx0 i AtEnd v ty st0 en0) as He.
  destruct (b <? s) eqn:E1; simpl.
  { exists tx. rewrite !shift_coor_0. auto. }
  destruct (e <=? a) eqn:E2; simpl.
  { rewrite (Hs _ _ _ _ Hn). simpl.
    erewrite He by (simpl; apply lookup_insert_eq). simpl.
    eexists; split; [reflexivity|]. simpl. split.
    - rewrite lookup_insert_eq. reflexivity.
    - intros j Hj. rewrite !lookup_insert_ne by congruence. reflexivity. }
  destruct ((s <=? a) && (b <? e) || isInlineNode sch ty && (s <=? a) && (b <=? e)) eqn:E3; simpl.
  { rewrite (delete_node_ok _ _ _ Hn). eexists; split; [reflexivity|]. simpl. split.
    - apply lookup_delete_eq.
    - intros j Hj. apply lookup_delete_ne. congruence. }
  destruct ((s <=? a) && (e <=? b)) eqn:E4; simpl.
  { apply andb_true_iff in E4 as [E4a E4b].
    destruct ((s <? a) || negb typeover) eqn:E5.
    - rewrite (Hs _ _ _ _ Hn). simpl.
      erewrite He by (simpl; apply lookup_insert_eq). simpl.
      eexists; split; [reflexivity|]. simpl. split.
      + rewrite lookup_insert_eq.
        destruct typeover; simpl in *.
        * rewrite orb_false_r in E5.
          replace (a =? s) with false by lia. reflexivity.
        * reflexivity.
      + intros j Hj. rewrite !lookup_insert_ne by congruence. reflexivity.
    - simpl. rewrite (He _ _ _ _ Hn).
      eexists; split; [reflexivity|]. simpl. split.
      + rewrite lookup_insert_eq.
        apply orb_false_iff in E5 as [E5a E5b].
        destruct typeover; [|discriminate]. simpl.
        replace (a =? s) with true by lia. rewrite shift_coor_0. reflexivity.
      + intros j Hj. rewrite !lookup_insert_ne by congruence. reflexivity. }
  destruct ((a <? s) && (b <? e)) eqn:E5; simpl.
  { rewrite (He _ _ _ _ Hn). eexists; split; [reflexivity|]. simpl. split.
    - rewrite lookup_insert_eq, shift_coor_0. reflexivity.
    - intros j Hj. rewrite !lookup_insert_ne by congruence. reflexivity. }
  destruct ((b =? s) && negb (autoExpandRight sch ty)) eqn:E6; simpl.
  { exists tx. rewrite !shift_coor_0. auto. }
  destruct ((a <? s) && (e <=? b)) eqn:E7; simpl.
  { destruct (isInlineNode sch ty) eqn:E8.
    - exists tx. rewrite !shift_coor_0. auto.
    - rewrite (He _ _ _ _ Hn). eexists; split; [reflexivity|]. simpl. split.
      + rewrite lookup_insert_eq, shift_coor_0. reflexivity.
      + intros j Hj. rewrite !lookup_insert_ne by congruence. reflexivity. }
  exists tx. auto.
Qed.

Lemma NoDup_fst_filter {A : Type} (P : string * A -> Prop)
  `{!forall x, Decision (P x)} (l : list (string * A)) :
  NoDup l.*1 -> NoDup (filter P l).*1.
Proof.
  intros Hnd. eapply sublist_NoDup; [exact Hnd|].
  apply fmap_sublist, sublist_filter.
Qed.

Lemma forEach_pointwise (f : Tx -> string * Node -> Result Tx)
  (post : string -> Node -> option Node) (l : list (string * Node)) :
  pointwise f post ->
  forall tx : Tx,
    NoDup l.*1 ->
    (forall i n, (i, n) ∈ l -> nodes tx !! i = Some n) ->
    exists tx',
      forEach f l tx = Ok tx' /\
      (forall i n, (i, n) ∈ l -> nodes tx' !! i = post i n) /\
      (forall j, j ∉ l.*1 -> nodes tx' !! j = nodes tx !! j).
Proof.
  intros Hf. induction l as [|[i n] l IH]; intros tx Hnd Hin.
  - exists tx. split; [reflexivity|]. split; [|reflexivity].
    intros i n H. inversion H.
  - rewrite fmap_cons in Hnd. apply NoDup_cons in Hnd as [Hi Hnd].
    destruct (Hf tx i n) as (tx1 & E1 & Hi1 & Ho1).
    { apply Hin. left. }
    destruct (IH tx1 Hnd) as (tx' & E' & Hl' & Ho').
    { intros j m Hjm. rewrite Ho1.
      - apply Hin. right. exact Hjm.
      - intros ->. apply Hi. apply list_elem_of_fmap. exists (i, m). auto. }
    exists tx'. simpl. rewrite E1. simpl. split; [exact E'|]. split.
    + intros j m Hjm. apply elem_of_cons in Hjm as [[= -> ->]|Hjm].
      * rewrite Ho' by exact Hi. exact Hi1.
      * apply Hl'. exact Hjm.
    + intros j Hj. simpl in Hj. apply not_elem_of_cons in Hj as [Hji Hj].
      rewrite Ho' by exact Hj. apply Ho1. exact Hji.
Qed.

Lemma getAnnotations_elem (tx : Tx) (p : Path) (i : string) (n : Node) :
  (i, n) ∈ getAnnotations tx p <->
  is_anno_on p (i, n) = true /\ nodes tx !! i = Some n.
Proof.
  unfold getAnnotations. rewrite list_elem_of_filter, elem_of_map_to_list.
  reflexivity.
Qed.

Lemma getAnnotations_NoDup (tx : Tx) (p : Path) :
  NoDup (getAnnotations tx p).*1.
Proof. apply NoDup_fst_filter, NoDup_fst_map_to_list. Qed.

(** ** C1: the annotation repositioning law of [Editing._insertText] *)

(** What the code does: for every text insert of length [L] that types
    over the range from [s] to [e] of a text property, [Editing._insertText]
    succeeds and treats every annotation [[a,b)] anchored on that property
    by the first row of the table whose test holds, in the order of its
    else-if chain: one of the seven tests holds, and the annotation is
    deleted or has its ends shifted by the amounts of that row. *)
Theorem insertText_repositioning_law (sch : Schema) (tx : Tx) (p : Path)
  (s e : Z) (cp : option Path) (text t : Text) (i ty : string)
  (a b : Z) (q : Path) :
  let sel := PropertySelection p s e cp in
  let inline := isInlineNode sch ty in
  getText tx p = Some t ->
  nodes tx !! i = Some (mkNode ty (AnnotationData (mkCoor p a) (mkCoor q b))) ->
  exists tx' c,
    Editing._insertText sch tx sel text = Ok tx' /\
    geometric_relation inline (autoExpandRight sch ty) s e a b = Some c /\
    nodes tx' !! i =
      match resulting_shift c inline (negb (isCollapsed sel)) s e
              (text_length text) a b with
      | Some (da, db) =>
          Some (mkNode ty (AnnotationData (mkCoor p (a + da)) (mkCoor q (b + db))))
      | None => None
      end.
Proof.
  intros sel inline Ht Hn.
  apply getText_text_at in Ht as (ti & tty & Ht).
  pose proof (text_at_Some _ _ _ _ _ Ht) as [Hp Hti].
  assert (Hne : i <> ti) by (intros ->; rewrite Hti in Hn; discriminate).
  unfold Editing._insertText. simpl. rewrite bool_decide_eq_true_2 by reflexivity. simpl.
  set (typeover := negb (isCollapsed sel)).
  (* the text updates succeed and leave the annotation alone *)
  assert (exists tx2,
             (tx1 <- (if typeover then update_text_delete tx p s e else Ok tx) ;;;
              update_text_insert tx1 p s text) = Ok tx2 /\
             nodes tx2 !! i = nodes tx !! i) as (tx2 & E2 & Hi2).
  { destruct typeover.
    - unfold update_text_delete. rewrite Ht. simpl.
      unfold update_text_insert. rewrite Hp.
      erewrite text_at_getPath by (simpl; apply lookup_insert_eq).
      eexists. split; [reflexivity|]. simpl.
      rewrite !lookup_insert_ne by congruence. reflexivity.
    - simpl. unfold update_text_insert. rewrite Ht.
      eexists. split; [reflexivity|]. simpl.
      rewrite !lookup_insert_ne by congruence. reflexivity. }
  destruct (forEach_pointwise _ _ (getAnnotations tx2 p)
              (reposition_anno_spec sch s e (text_length text) typeover) tx2)
    as (tx3 & E3 & Hl3 & _).
  { apply getAnnotations_NoDup. }
  { intros j m Hjm. apply getAnnotations_elem in Hjm. tauto. }
  specialize (Hl3 i (mkNode ty (AnnotationData (mkCoor p a) (mkCoor q b)))).
  rewrite getAnnotations_elem in Hl3.
  specialize (Hl3 (conj (bool_decide_eq_true_2 _ eq_refl) (eq_trans Hi2 Hn))).
  unfold repositioned in Hl3. simpl in Hl3. fold inline in Hl3.
  assert (exists c, geometric_relation inline (autoExpandRight sch ty) s e a b = Some c)
    as [c Hc].
  { unfold geometric_relation.
    repeat match goal with
           | |- context [if ?x then _ else _] => destruct x eqn:?; eauto
           end.
    exfalso. lia. }
  exists (setSelection tx3 (cursorAt p (s + text_length text) cp)), c.
  split.
  - destruct typeover; simpl in E2 |- *.
    + destruct (update_text_delete tx p s e) as [tx1|]; [|discriminate].
      simpl in E2 |- *. rewrite E2. simpl. rewrite E3. reflexivity.
    + rewrite E2. simpl. rewrite E3. reflexivity.
  - split; [exact Hc|]. simpl. rewrite Hl3, Hc.
    destruct (resulting_shift c inline typeover s e (text_length text) a b)
      as [[da db]|]; reflexivity.
Qed.

Lemma insertText_repositioning_law_witness :
  exists tx',
    Editing._insertText sample_schema (sample_tx NullSelection)
      (PropertySelection (getPath "p1") 3 3 (Some body)) [120] = Ok tx' /\
    nodes tx' !! "a1"%string = Some (strong (getPath "p1") 1 2) /\
    nodes tx' !! "a2"%string = Some (strong (getPath "p1") 5 7).
Proof.
  destruct (insertText_repositioning_law sample_schema (sample_tx NullSelection)
              (getPath "p1") 3 3 (Some body) [120] abcdefgh "a2" "strong" 4 6
              (getPath "p1")) as (tx' & c & E & Hc & Ha2);
    [reflexivity | reflexivity |].
  exists tx'. split; [exact E|].
  vm_compute in Hc. injection Hc as <-.
  split; [|exact Ha2].
  vm_compute in E. injection E as <-. reflexivity.
Defined.

(** C1. The code departs from row VI of the table. In ["abcdefgh"] with a
    link over [[1,3)], whose type does not expand to the right, typing
    ["x"] over the selection [[3,5)], which starts where the link ends,
    meets the test of row VI; yet the chain of [_insertText] stops at the
    test of row V before it reaches that of row VI, and the link grows to
    [[1,4)], over the typed character, in the text ["abcxfgh"]. Typing the
    same character at the collapsed cursor at offset 3 leaves the link as
    it is, as row VI prescribes. *)
Theorem typeover_at_annotation_end_expands :
  let p := getPath "p1" in
  let expands := autoExpandRight sample_schema "link" in
  table_row_VI expands 3 3 = true /\
  geometric_relation (isInlineNode sample_schema "link") expands 3 5 1 3
  = Some CaseV /\
  (exists tx',
      Editing._insertText sample_schema linked_tx
        (PropertySelection p 3 5 (Some body)) [120] = Ok tx' /\
      getText tx' p = Some [97; 98; 99; 120; 102; 103; 104] /\
      nodes tx' !! "l1"%string = Some (link p 1 4)) /\
  (exists tx',
      Editing._insertText sample_schema linked_tx
        (PropertySelection p 3 3 (Some body)) [120] = Ok tx' /\
      getText tx' p = Some [97; 98; 99; 120; 100; 101; 102; 103; 104] /\
      nodes tx' !! "l1"%string = Some (link p 1 3)).
Proof.
  cbv zeta. split; [reflexivity|]. split; [reflexivity|]. split.
  - eexists. split; [vm_compute; reflexivity|]. split; reflexivity.
  - eexists. split; [vm_compute; reflexivity|]. split; reflexivity.
Qed.

(** ** C7: deleting at a text boundary outside of a container *)

(** C7. With a collapsed selection that has no container path, [delete]
    towards the boundary the cursor sits at (offset 0 going left, or the end
    of the text going right) returns normally and leaves the transaction,
    hence the document, exactly as it was. *)
Theorem delete_at_boundary_is_noop (sch : Schema) (env : Collaborators)
  (tx : Tx) (direction : Direction) (p : Path) (o : Z) (t : Text) :
  selection tx = PropertySelection p o o None ->
  getText tx p = Some t ->
  (o = 0 /\ direction = DirLeft) \/ (o = text_length t /\ direction = DirRight) ->
  Editing.delete sch env tx direction = Ok tx.
Proof.
  intros Hsel Ht Hb. unfold Editing.delete. rewrite Hsel. simpl.
  unfold isCollapsed. simpl. rewrite bool_decide_eq_true_2 by reflexivity.
  rewrite Ht. simpl.
  destruct Hb as [[-> ->]|[-> ->]]; simpl.
  - reflexivity.
  - rewrite Z.eqb_refl. simpl. rewrite orb_true_r. reflexivity.
Qed.

Lemma delete_at_boundary_is_noop_witness :
  let tx := sample_tx (PropertySelection (getPath "p1") 0 0 None) in
  Editing.delete sample_schema idle tx DirLeft = Ok tx.
Proof.
  apply (delete_at_boundary_is_noop _ _ _ DirLeft (getPath "p1") 0 abcdefgh);
    [reflexivity | reflexivity | left; split; reflexivity].
Defined.

(** ** C10: single-character deletion and surrogate pairs *)

Lemma surrogates_disjoint (c : Z) :
  is_lead_surrogate c = true -> is_trail_surrogate c = true -> False.
Proof. unfold is_lead_surrogate, is_trail_surrogate. lia. Qed.

Lemma isLowSurrogate_lead (c : Z) :
  _isLowSurrogate (Some c) = is_lead_surrogate c.
Proof.
  unfold _isLowSurrogate, is_lead_surrogate. rewrite Z.geb_leb. reflexivity.
Qed.

Lemma isHighSurrogate_trail (c : Z) :
  _isHighSurrogate (Some c) = is_trail_surrogate c.
Proof.
  unfold _isHighSurrogate, is_trail_surrogate. rewrite Z.geb_leb. reflexivity.
Qed.

(** Induction along the way [well_formed] reads a text: one plain code
    unit, or one surrogate pair, at a time. *)
Lemma well_formed_ind (P : Text -> Prop) :
  P [] ->
  (forall c r, is_lead_surrogate c = false -> is_trail_surrogate c = false ->
               well_formed r = true -> P r -> P (c :: r)) ->
  (forall c d r, is_lead_surrogate c = true -> is_trail_surrogate d = true ->
                 well_formed r = true -> P r -> P (c :: d :: r)) ->
  forall t, well_formed t = true -> P t.
Proof.
  intros Hnil Hone Hpair t.
  remember (length t) as n eqn:Hlen. revert t Hlen.
  induction n as [n IH] using lt_wf_ind. intros t Hlen Hwf.
  destruct t as [|c r]; [exact Hnil|].
  simpl in Hwf. destruct (is_lead_surrogate c) eqn:Hl.
  - destruct r as [|d r']; [discriminate|].
    apply andb_true_iff in Hwf as [Hd Hr].
    apply Hpair; auto. apply (IH (length r')); simpl in *; auto; lia.
  - destruct (is_trail_surrogate c) eqn:Ht; [discriminate|].
    apply Hone; auto. apply (IH (length r)); simpl in *; auto; lia.
Qed.

(** Removing the character found at index [k] of a well-formed text, both
    units of it when it is a surrogate pair, leaves a well-formed text. *)
Lemma well_formed_remove (t : Text) :
  well_formed t = true ->
  forall (k : nat) (c : Z),
    t !! k = Some c ->
    (is_lead_surrogate c = true ->
     (exists d, t !! S k = Some d /\ is_trail_surrogate d = true) /\
     well_formed (take k t ++ drop (S (S k)) t) = true) /\
    (is_trail_surrogate c = true ->
     (exists k', k = S k') /\
     well_formed (take (k - 1) t ++ drop (S k) t) = true) /\
    (is_lead_surrogate c = false -> is_trail_surrogate c = false ->
     well_formed (take k t ++ drop (S k) t) = true).
Proof.
  revert t. apply (well_formed_ind (fun t => forall (k : nat) (c : Z), t !! k = Some c -> _));
    [|intros c0 r Hl0 Ht0 Hr IH|intros c0 d0 r Hl0 Ht0 Hr IH]; intros k c Hk.
  - discriminate.
  - destruct k as [|k]; simpl in Hk.
    + injection Hk as <-. split; [congruence|]. split; [congruence|].
      intros _ _. simpl. rewrite drop_0. exact Hr.
    + destruct (IH k c Hk) as (Ha & Hb & Hc). split; [|split].
      * intros Hc0. apply Ha in Hc0 as [Hd Hw]. split; [exact Hd|].
        simpl. rewrite Hl0, Ht0. exact Hw.
      * intros Hc0. apply Hb in Hc0 as [[k' ->] Hw]. split; [eauto|].
        simpl in Hw |- *. rewrite Nat.sub_0_r in Hw.
        rewrite Hl0, Ht0. exact Hw.
      * intros H1 H2. simpl. rewrite Hl0, Ht0. auto.
  - destruct k as [|[|k]]; simpl in Hk.
    + injection Hk as <-. split; [|split].
      * intros _. split; [exists d0; auto|].
        simpl. rewrite drop_0. exact Hr.
      * intros Hc0. destruct (surrogates_disjoint _ Hl0 Hc0).
      * congruence.
    + injection Hk as <-. split; [|split].
      * intros Hc0. destruct (surrogates_disjoint _ Hc0 Ht0).
      * intros _. split; [eauto|]. simpl. rewrite drop_0. exact Hr.
      * congruence.
    + destruct (IH k c Hk) as (Ha & Hb & Hc). split; [|split].
      * intros Hc0. apply Ha in Hc0 as [Hd Hw]. split; [exact Hd|].
        simpl. rewrite Hl0, Ht0. simpl. exact Hw.
      * intros Hc0. apply Hb in Hc0 as [[k' ->] Hw]. split; [eauto|].
        simpl in Hw |- *. rewrite Nat.sub_0_r in Hw.
        rewrite Hl0, Ht0. simpl. exact Hw.
      * intros H1 H2. simpl. rewrite Hl0, Ht0. simpl. auto.
Qed.

Lemma law_step_spec (sch : Schema) (s e : Z) :
  pointwise (law_step sch s e) (fun _ n => repositioned sch true s e 0 n).
Proof.
  intros tx i n Hn. destruct n as [ty d].
  unfold law_step, repositioned. simpl.
  destruct d as [t|st en|l|l|]; try solve [exists tx; auto].
  destruct (geometric_relation _ _ s e (offset st) (offset en)) as [c|];
    [|exists tx; auto].
  destruct (resulting_shift c _ true s e 0 (offset st) (offset en))
    as [[da db]|].
  - destruct (da =? 0) eqn:Ea; destruct (db =? 0) eqn:Eb; simpl.
    + apply Z.eqb_eq in Ea as ->. apply Z.eqb_eq in Eb as ->.
      exists tx. rewrite !shift_coor_0. auto.
    + apply Z.eqb_eq in Ea as ->.
      rewrite (update_shift_ok _ _ _ _ _ _ _ Hn).
      eexists. split; [reflexivity|]. simpl. split.
      * rewrite lookup_insert_eq, shift_coor_0. reflexivity.
      * intros j Hj. rewrite lookup_insert_ne by congruence. reflexivity.
    + apply Z.eqb_eq in Eb as ->.
      rewrite (update_shift_ok _ _ _ _ _ _ _ Hn). simpl.
      eexists. split; [reflexivity|]. simpl. split.
      * rewrite lookup_insert_eq, shift_coor_0. reflexivity.
      * intros j Hj. rewrite lookup_insert_ne by congruence. reflexivity.
    + rewrite (update_shift_ok _ _ _ _ _ _ _ Hn). simpl.
      erewrite update_shift_ok by (simpl; apply lookup_insert_eq).
      eexists. split; [reflexivity|]. simpl. split.
      * rewrite lookup_insert_eq. reflexivity.
      * intros j Hj. rewrite !lookup_insert_ne by congruence. reflexivity.
  - rewrite (delete_node_ok _ _ _ Hn). eexists. split; [reflexivity|]. simpl.
    split; [apply lookup_delete_eq|].
    intros j Hj. apply lookup_delete_ne. congruence.
Qed.

Lemma not_annotation_not_listed (tx : Tx) (p : Path) (i ty : string) (t : Text) :
  nodes tx !! i = Some (mkNode ty (TextData t)) ->
  i ∉ (getAnnotations tx p).*1.
Proof.
  intros Hi Hin. apply list_elem_of_fmap in Hin as ([j n] & -> & Hjn).
  apply getAnnotations_elem in Hjn as [Ha Hn]. simpl in *.
  rewrite Hi in Hn. injection Hn as <-. discriminate.
Qed.

(** [deleteTextRange] removes the range from the text it addresses. *)
Lemma deleteTextRange_text (sch : Schema) (tx : Tx) (p : Path) (s e : Z)
  (t : Text) :
  getText tx p = Some t ->
  exists tx',
    deleteTextRange sch tx (mkCoor p s) (mkCoor p e) = Ok tx' /\
    getText tx' p = Some (text_delete t s e).
Proof.
  intros Ht. apply getText_text_at in Ht as (i & ty & Ht).
  pose proof (text_at_Some _ _ _ _ _ Ht) as [-> Hi].
  unfold deleteTextRange. simpl. rewrite bool_decide_eq_true_2 by reflexivity.
  simpl. unfold update_text_delete. rewrite Ht. simpl.
  match goal with
  | |- context [forEach _ (getAnnotations ?x _) _] => set (tx1 := x)
  end.
  assert (H1 : nodes tx1 !! i = Some (mkNode ty (TextData (text_delete t s e))))
    by (simpl; apply lookup_insert_eq).
  destruct (forEach_pointwise _ _ (getAnnotations tx1 (getPath i))
              (law_step_spec sch s e) tx1) as (tx' & E & _ & Ho).
  { apply getAnnotations_NoDup. }
  { intros j m Hjm. apply getAnnotations_elem in Hjm. tauto. }
  exists tx'. split; [exact E|].
  unfold getText. erewrite text_at_getPath; [reflexivity|].
  rewrite Ho; [exact H1|]. eapply not_annotation_not_listed. exact H1.
Qed.

(** C10. A single-character [delete] with a collapsed cursor inside a
    well-formed text never splits a surrogate pair: when the code unit at
    the tentative start offset is a lead surrogate (which is then followed
    by its trail surrogate) both units are deleted, when it is a trail
    surrogate the start moves one position to the left, and the text that
    remains is again free of unpaired surrogates. *)
Theorem delete_keeps_surrogate_pairs (sch : Schema) (env : Collaborators)
  (tx : Tx) (direction : Direction) (p : Path) (o : Z) (cp : option Path)
  (t : Text) :
  let s0 := if isLeft direction then o - 1 else o in
  selection tx = PropertySelection p o o cp ->
  getText tx p = Some t ->
  well_formed t = true ->
  0 <= o <= text_length t ->
  (direction = DirLeft -> o <> 0) ->
  (direction = DirRight -> o <> text_length t) ->
  exists tx' c s e,
    Editing.delete sch env tx direction = Ok tx' /\
    charCodeAt t s0 = Some c /\
    (is_lead_surrogate c = true ->
     (exists d, charCodeAt t (s0 + 1) = Some d /\ is_trail_surrogate d = true) /\
     s = s0 /\ e = s0 + 2) /\
    (is_trail_surrogate c = true -> s = s0 - 1 /\ e = s0 + 1) /\
    (is_lead_surrogate c = false -> is_trail_surrogate c = false ->
     s = s0 /\ e = s0 + 1) /\
    getText tx' p = Some (text_delete t s e) /\
    well_formed (text_delete t s e) = true.
Proof.
  intros s0 Hsel Ht Hwf Ho Hl Hr.
  assert (Hs0 : 0 <= s0 < text_length t).
  { subst s0. destruct direction; simpl.
    - specialize (Hl eq_refl). lia.
    - specialize (Hr eq_refl). lia. }
  assert (Hb : (o =? 0) && isLeft direction
               || (o =? text_length t) && isRight direction = false).
  { destruct direction; simpl.
    - rewrite andb_false_r, orb_false_r, andb_true_r. apply Z.eqb_neq. auto.
    - rewrite andb_false_r, andb_true_r. simpl. apply Z.eqb_neq. auto. }
  unfold text_length in Hs0.
  destruct (lookup_lt_is_Some_2 t (Z.to_nat s0)) as [c Hc]; [lia|].
  assert (Hcc : charCodeAt t s0 = Some c).
  { unfold charCodeAt. replace (s0 <? 0) with false by lia. exact Hc. }
  destruct (well_formed_remove t Hwf _ _ Hc) as (Ha & Hbt & Hcp).
  unfold Editing.delete. rewrite Hsel. simpl.
  unfold isCollapsed. simpl. rewrite bool_decide_eq_true_2 by reflexivity.
  rewrite Ht. simpl. rewrite Hb. fold s0. rewrite Hcc.
  rewrite isLowSurrogate_lead, isHighSurrogate_trail.
  destruct (is_lead_surrogate c) eqn:Elead.
  - destruct (Ha eq_refl) as [[d [Hd Hdt]] Hw].
    assert (Hdc : charCodeAt t (s0 + 1) = Some d).
    { unfold charCodeAt. replace (s0 + 1 <? 0) with false by lia.
      replace (Z.to_nat (s0 + 1)) with (S (Z.to_nat s0)) by lia. exact Hd. }
    rewrite Hdc, isHighSurrogate_trail, Hdt.
    destruct (deleteTextRange_text sch tx p s0 (s0 + 1 + 1) t Ht) as (tx1 & E1 & T1).
    rewrite E1. simpl.
    exists (setSelection tx1 (cursorAt p s0 cp)), c, s0, (s0 + 1 + 1).
    split; [reflexivity|]. split; [reflexivity|].
    split; [intros _; split; [eauto|split; [reflexivity|lia]]|].
    split; [intros Hx; destruct (surrogates_disjoint _ Elead Hx)|].
    split; [intros; congruence|].
    split; [exact T1|].
    unfold text_delete.
    replace (Z.to_nat (s0 + 1 + 1)) with (S (S (Z.to_nat s0))) by lia. exact Hw.
  - destruct (is_trail_surrogate c) eqn:Etrail.
    + destruct (Hbt eq_refl) as [[k' Hk'] Hw].
      destruct (deleteTextRange_text sch tx p (s0 - 1) (s0 + 1) t Ht) as (tx1 & E1 & T1).
      rewrite E1. simpl.
      exists (setSelection tx1 (cursorAt p (s0 - 1) cp)), c, (s0 - 1), (s0 + 1).
      split; [reflexivity|]. split; [reflexivity|].
      split; [intros; congruence|]. split; [auto|]. split; [intros; congruence|].
      split; [exact T1|].
      unfold text_delete.
      replace (Z.to_nat (s0 - 1)) with (Z.to_nat s0 - 1)%nat by lia.
      replace (Z.to_nat (s0 + 1)) with (S (Z.to_nat s0)) by lia. exact Hw.
    + destruct (deleteTextRange_text sch tx p s0 (s0 + 1) t Ht) as (tx1 & E1 & T1).
      rewrite E1. simpl.
      exists (setSelection tx1 (cursorAt p s0 cp)), c, s0, (s0 + 1).
      split; [reflexivity|]. split; [reflexivity|].
      split; [intros; congruence|]. split; [intros; congruence|]. split; [auto|].
      split; [exact T1|].
      unfold text_delete.
      replace (Z.to_nat (s0 + 1)) with (S (Z.to_nat s0)) by lia. auto.
Qed.

Lemma delete_keeps_surrogate_pairs_witness :
  exists tx',
    Editing.delete sample_schema idle
      (sample_tx (PropertySelection (getPath "p3") 3 3 (Some body))) DirLeft
    = Ok tx' /\
    getText tx' (getPath "p3") = Some [97; 98].
Proof.
  destruct (delete_keeps_surrogate_pairs sample_schema idle
              (sample_tx (PropertySelection (getPath "p3") 3 3 (Some body)))
              DirLeft (getPath "p3") 3 (Some body) [97; 55357; 56832; 98])
    as (tx' & c & s & e & E & Hc & _ & Htrail & _ & Ht & _);
    [reflexivity | reflexivity | reflexivity | vm_compute; split; discriminate
    | intros _; lia | intros; discriminate |].
  vm_compute in Hc. injection Hc as <-.
  destruct (Htrail eq_refl) as [-> ->].
  exists tx'. split; [exact E|]. rewrite Ht. reflexivity.
Defined.

(** ** Transfer and deep deletion *)

(** What a loop leaves untouched and what it records follow from its
    iterations. *)
Lemma forEach_frame {A : Type} (Q : Op -> Prop) (f : Tx -> A -> Result Tx) :
  (forall tx a tx', f tx a = Ok tx' ->
                    selection tx' = selection tx /\
                    exists lo, ops tx' = ops tx ++ lo /\ Forall Q lo) ->
  forall l tx tx',
    forEach f l tx = Ok tx' ->
    selection tx' = selection tx /\
    exists lo, ops tx' = ops tx ++ lo /\ Forall Q lo.
Proof.
  intros Hf. induction l as [|a l IH]; intros tx tx' E; simpl in E.
  - injection E as <-. split; [reflexivity|]. exists []. rewrite app_nil_r. auto.
  - destruct (f tx a) as [tx1|] eqn:E1; [|discriminate]. simpl in E.
    destruct (Hf _ _ _ E1) as (S1 & l1 & H1 & Q1).
    destruct (IH _ _ E) as (S2 & l2 & H2 & Q2).
    split; [congruence|].
    exists (l1 ++ l2). rewrite H2, H1, app_assoc. split; [reflexivity|].
    apply Forall_app. auto.
Qed.

Lemma set_coordinate_ok (tx : Tx) (i : string) (ep : Endpoint) (c : Coordinate)
  (ty : string) (st en : Coordinate) :
  nodes tx !! i = Some (mkNode ty (AnnotationData st en)) ->
  set_coordinate tx i ep c =
  Ok (record
        (with_nodes tx
           (<[i := mkNode ty
                     match ep with
                     | AtStart => AnnotationData c en
                     | AtEnd => AnnotationData st c
                     end]> (nodes tx)))
        (OpSetCoordinate i ep c)).
Proof. intros H. unfold set_coordinate. rewrite H. reflexivity. Qed.

Lemma set_coordinate_frame (tx tx' : Tx) (i : string) (ep : Endpoint)
  (c : Coordinate) :
  set_coordinate tx i ep c = Ok tx' ->
  selection tx' = selection tx /\ ops tx' = ops tx ++ [OpSetCoordinate i ep c].
Proof.
  unfold set_coordinate.
  destruct (nodes tx !! i) as [[ty [t|st en|l|l|]]|]; try discriminate.
  intros [= <-]. auto.
Qed.

Lemma delete_node_frame (tx tx' : Tx) (i : string) :
  delete_node tx i = Ok tx' ->
  selection tx' = selection tx /\
  exists n, nodes tx !! i = Some n /\ ops tx' = ops tx ++ [OpDelete i n].
Proof.
  unfold delete_node. destruct (nodes tx !! i) as [n|]; [|discriminate].
  intros [= <-]. eauto.
Qed.

Lemma transfer_step_spec (o : Z) (np : Path) (no : Z) :
  pointwise (transfer_step o np no) (fun _ n => Some (transferred o np no n)).
Proof.
  intros tx i n Hn. destruct n as [ty d].
  unfold transfer_step, transferred. simpl.
  destruct d as [t|st en|l|l|]; try solve [exists tx; auto].
  destruct (o <=? offset st); [|exists tx; auto].
  rewrite (set_coordinate_ok _ _ _ _ _ _ _ Hn). simpl.
  erewrite set_coordinate_ok by (simpl; apply lookup_insert_eq).
  eexists. split; [reflexivity|]. simpl. split.
  - rewrite lookup_insert_eq. reflexivity.
  - intros j Hj. rewrite !lookup_insert_ne by congruence. reflexivity.
Qed.

Lemma transfer_step_frame (o : Z) (np : Path) (no : Z) (tx : Tx)
  (a : string * Node) (tx' : Tx) :
  transfer_step o np no tx a = Ok tx' ->
  selection tx' = selection tx /\
  exists lo, ops tx' = ops tx ++ lo /\ Forall is_set_coordinate lo.
Proof.
  unfold transfer_step. destruct (data a.2) as [t|st en|l|l|];
    try (intros [= <-]; split; [reflexivity|]; exists []; rewrite app_nil_r; auto).
  destruct (o <=? offset st);
    [|intros [= <-]; split; [reflexivity|]; exists []; rewrite app_nil_r; auto].
  destruct (set_coordinate tx a.1 AtStart _) as [tx1|] eqn:E1; [|discriminate].
  simpl. intros E2.
  apply set_coordinate_frame in E1 as [S1 O1].
  apply set_coordinate_frame in E2 as [S2 O2].
  split; [congruence|]. eexists. rewrite O2, O1, <- app_assoc.
  split; [reflexivity|]. repeat constructor.
Qed.

(** [transferAnnotations] succeeds, rewrites exactly the annotations of the
    source property and records nothing but coordinate updates. *)
Lemma transferAnnotations_spec (tx : Tx) (p : Path) (o : Z) (np : Path)
  (no : Z) :
  exists tx' lo,
    transferAnnotations tx p o np no = Ok tx' /\
    (forall j, nodes tx' !! j =
               (fun n => if is_anno_on p (j, n) then transferred o np no n else n)
                 <$> nodes tx !! j) /\
    selection tx' = selection tx /\
    ops tx' = ops tx ++ lo /\ Forall is_set_coordinate lo.
Proof.
  unfold transferAnnotations.
  destruct (forEach_pointwise _ _ (getAnnotations tx p)
              (transfer_step_spec o np no) tx) as (tx' & E & Hl & Ho).
  { apply getAnnotations_NoDup. }
  { intros j m Hjm. apply getAnnotations_elem in Hjm. tauto. }
  destruct (forEach_frame is_set_coordinate _
              (transfer_step_frame o np no) _ _ _ E) as (Hs & lo & Hops & HQ).
  exists tx', lo. split; [exact E|]. split; [|auto].
  intros j. destruct (nodes tx !! j) as [n|] eqn:Hj; simpl.
  - destruct (is_anno_on p (j, n)) eqn:Ha.
    + apply Hl. apply getAnnotations_elem. auto.
    + rewrite Ho; [exact Hj|]. intros Hin.
      apply list_elem_of_fmap in Hin as ([j' m] & -> & Hjm).
      apply getAnnotations_elem in Hjm as [Ha' Hm]. simpl in *. congruence.
  - rewrite Ho; [exact Hj|]. intros Hin.
    apply list_elem_of_fmap in Hin as ([j' m] & -> & Hjm).
    apply getAnnotations_elem in Hjm as [Ha' Hm]. simpl in *. congruence.
Qed.

(** ** Containers *)

Lemma insertAt_ok (tx : Tx) (c prop cty : string) (ids : list string)
  (pos : Z) (i : string) :
  nodes tx !! c = Some (mkNode cty (ContainerData ids)) ->
  0 <= pos <= Z.of_nat (length ids) ->
  insertAt tx [c; prop] pos i =
  Ok (record
        (with_nodes tx
           (<[c := mkNode cty
                     (ContainerData
                        (take (Z.to_nat pos) ids ++ i :: drop (Z.to_nat pos) ids))]>
              (nodes tx)))
        (OpArrayInsert [c; prop] pos i)).
Proof.
  intros Hc Hpos. unfold insertAt, container_ids, set_container. rewrite Hc. simpl.
  replace (pos <? 0) with false by lia.
  replace (Z.of_nat (length ids) <? pos) with false by lia. reflexivity.
Qed.

Lemma removeAt_ok (tx : Tx) (c prop cty : string) (ids : list string)
  (pos : Z) :
  nodes tx !! c = Some (mkNode cty (ContainerData ids)) ->
  0 <= pos < Z.of_nat (length ids) ->
  removeAt tx [c; prop] pos =
  Ok (record
        (with_nodes tx
           (<[c := mkNode cty
                     (ContainerData
                        (take (Z.to_nat pos) ids ++ drop (S (Z.to_nat pos)) ids))]>
              (nodes tx)))
        (OpArrayDelete [c; prop] pos)).
Proof.
  intros Hc Hpos. unfold removeAt, container_ids, set_container. rewrite Hc. simpl.
  replace (pos <? 0) with false by lia.
  replace (Z.of_nat (length ids) <=? pos) with false by lia. reflexivity.
Qed.

Lemma index_of_Some (i : string) (l : list string) (pos : nat) :
  index_of i l = Some pos -> l !! pos = Some i.
Proof.
  unfold index_of. destruct (list_find _ l) as [[k x]|] eqn:E; [|discriminate].
  simpl. intros [= ->]. apply list_find_Some in E as (Hl & -> & _). exact Hl.
Qed.

Lemma uuid_nodes (sch : Schema) (prefix : string) (tx : Tx) :
  nodes (uuid sch prefix tx).2 = nodes tx /\
  selection (uuid sch prefix tx).2 = selection tx /\
  ops (uuid sch prefix tx).2 = ops tx.
Proof. unfold uuid. destruct (DETERMINISTIC_UUID sch); auto. Qed.

Lemma text_delete_to_end (t : Text) (o : Z) :
  text_delete t o (text_length t) = take (Z.to_nat o) t.
Proof.
  unfold text_delete, text_length. rewrite Nat2Z.id, drop_all, app_nil_r.
  reflexivity.
Qed.

Lemma text_insert_at_end (t ins : Text) :
  text_insert t (text_length t) ins = t ++ ins.
Proof.
  unfold text_insert, text_length.
  rewrite Nat2Z.id, firstn_all, drop_all, app_nil_r. reflexivity.
Qed.

(** ** C3: breaking a text node *)

(** C3. When [break] splits a text node at an offset [o] strictly inside
    its text, the original property is truncated to its first [o]
    characters, a new node that holds the rest is inserted into the
    container immediately after the original, and every annotation of the
    property that starts at or after [o] is transferred to the new node
    with both offsets reduced by [o]. *)
Theorem break_splits_text_node (sch : Schema) (env : Collaborators) (tx : Tx)
  (nodeId ty : string) (t : Text) (o : Z) (c prop cty : string)
  (ids : list string) (pos : nat) :
  let p := getPath nodeId in
  let cp := [c; prop] in
  let newId := (uuid sch ty tx).1 in
  selection tx = PropertySelection p o o (Some cp) ->
  nodes tx !! c = Some (mkNode cty (ContainerData ids)) ->
  index_of nodeId ids = Some pos ->
  nodes tx !! nodeId = Some (mkNode ty (TextData t)) ->
  nodes tx !! newId = None ->
  0 < o < text_length t ->
  exists tx',
    Editing.break sch env tx = Ok tx' /\
    getText tx' p = Some (take (Z.to_nat o) t) /\
    getText tx' (getPath newId) = Some (drop (Z.to_nat o) t) /\
    container_ids tx' cp = Some (take (S pos) ids ++ newId :: drop (S pos) ids) /\
    (forall i aty a b q,
        nodes tx !! i =
          Some (mkNode aty (AnnotationData (mkCoor p a) (mkCoor q b))) ->
        o <= a ->
        nodes tx' !! i =
          Some (mkNode aty
                  (AnnotationData (mkCoor (getPath newId) (a - o))
                     (mkCoor (getPath newId) (b - o))))).
Proof.
  intros p cp newId Hsel Hc Hpos Hn Hfresh Ho. subst cp.
  pose proof (index_of_Some _ _ _ Hpos) as Hlk.
  assert (Hin : nodeId ∈ ids) by (eapply list_elem_of_lookup_2; exact Hlk).
  pose proof (lookup_lt_Some _ _ _ Hlk) as Hlt.
  assert (Hcn : c <> nodeId) by (intros ->; rewrite Hc in Hn; discriminate).
  assert (Hcf : c <> newId) by (intros E; rewrite E, Hfresh in Hc; discriminate).
  assert (Hnf : nodeId <> newId) by (intros E; rewrite E, Hfresh in Hn; discriminate).
  unfold Editing.break. rewrite Hsel. simpl.
  unfold isCollapsed. simpl. rewrite bool_decide_eq_true_2 by reflexivity. simpl.
  unfold Editing._breakNode, getContainerRoot, container_ids. rewrite Hc. simpl.
  rewrite bool_decide_eq_true_2 by exact Hin. simpl. rewrite Hn. simpl.
  unfold Editing._breakTextNode. rewrite Hn. simpl.
  unfold getContainerPosition, container_ids. rewrite Hc. simpl. rewrite Hpos. simpl.
  unfold getText. rewrite (text_at_getPath _ _ _ _ Hn). simpl.
  replace (o =? 0) with false by lia.
  destruct (uuid_nodes sch ty tx) as (Un & Us & Uo).
  subst newId. destruct (uuid sch ty tx) as [newId tx1]. simpl in *.
  replace (o =? text_length t) with false by lia. simpl.
  replace (o <? text_length t) with true by lia.
  set (tx2 := create tx1 newId _).
  destruct (transferAnnotations_spec tx2 p o (getPath newId) 0)
    as (tx3 & lo & E3 & Hn3 & Hs3 & Ho3 & HQ3).
  fold p. rewrite E3. simpl.
  assert (Hn2 : forall j, j <> newId -> nodes tx2 !! j = nodes tx !! j).
  { intros j Hj. subst tx2. simpl. rewrite lookup_insert_ne by congruence.
    rewrite Un. reflexivity. }
  assert (Hn3n : nodes tx3 !! nodeId = Some (mkNode ty (TextData t))).
  { rewrite Hn3, Hn2, Hn by congruence. reflexivity. }
  assert (Hn3c : nodes tx3 !! c = Some (mkNode cty (ContainerData ids))).
  { rewrite Hn3, Hn2, Hc by congruence. reflexivity. }
  assert (Hn3f : nodes tx3 !! newId =
                 Some (mkNode ty (TextData (substring_from t o)))).
  { rewrite Hn3. subst tx2. simpl. rewrite lookup_insert_eq. reflexivity. }
  subst p. unfold update_text_delete. rewrite (text_at_getPath _ _ _ _ Hn3n). simpl.
  erewrite insertAt_ok;
    [|simpl; rewrite lookup_insert_ne by congruence; exact Hn3c|lia].
  simpl. eexists. split; [reflexivity|]. simpl.
  replace (Z.to_nat (Z.of_nat pos + 1)) with (S pos) by lia.
  rewrite lookup_insert_ne, lookup_insert_eq by congruence.
  rewrite text_delete_to_end.
  split; [reflexivity|].
  rewrite !lookup_insert_ne by congruence. rewrite Hn3f.
  split; [reflexivity|].
  rewrite lookup_insert_eq.
  split; [reflexivity|].
  intros i aty a b q Hi Hoa.
  assert (i <> newId) by (intros E; rewrite E, Hfresh in Hi; discriminate).
  assert (i <> nodeId) by (intros E; rewrite E, Hn in Hi; discriminate).
  assert (i <> c) by (intros E; rewrite E, Hc in Hi; discriminate).
  rewrite !lookup_insert_ne by congruence.
  rewrite Hn3, Hn2, Hi by congruence. simpl.
  unfold is_anno_on. simpl. rewrite bool_decide_eq_true_2 by reflexivity.
  unfold transferred. simpl. replace (o <=? a) with true by lia.
  repeat f_equal; lia.
Qed.

Lemma break_splits_text_node_witness :
  exists tx',
    Editing.break sample_schema idle
      (sample_tx (PropertySelection (getPath "p1") 3 3 (Some body))) = Ok tx' /\
    getText tx' (getPath "p1") = Some [97; 98; 99] /\
    getText tx' (getPath "0") = Some [100; 101; 102; 103; 104] /\
    container_ids tx' body = Some ["p1"; "0"; "p2"; "p3"]%string /\
    nodes tx' !! "a2"%string = Some (strong (getPath "0") 1 3).
Proof.
  destruct (break_splits_text_node sample_schema idle
              (sample_tx (PropertySelection (getPath "p1") 3 3 (Some body)))
              "p1" "paragraph" abcdefgh 3 "body" "nodes" "container"
              ["p1"; "p2"; "p3"]%string 0)
    as (tx' & E & Ht & Hnew & Hids & Hannos);
    [reflexivity | reflexivity | reflexivity | reflexivity | reflexivity
    | vm_compute; split; reflexivity |].
  exists tx'. split; [exact E|]. split; [exact Ht|]. split; [exact Hnew|].
  split; [exact Hids|].
  apply (Hannos "a2"%string "strong"%string 4 6 (getPath "p1")); [reflexivity|lia].
Defined.

Lemma delete_step_spec :
  pointwise (fun tx a => delete_node tx a.1) (fun _ _ => None).
Proof.
  intros tx i n Hn. simpl. rewrite (delete_node_ok _ _ _ Hn).
  eexists. split; [reflexivity|]. simpl. split; [apply lookup_delete_eq|].
  intros j Hj. apply lookup_delete_ne. congruence.
Qed.

Lemma delete_step_frame (tx : Tx) (a : string * Node) (tx' : Tx) :
  delete_node tx a.1 = Ok tx' ->
  selection tx' = selection tx /\
  exists lo, ops tx' = ops tx ++ lo /\ Forall is_delete_op lo.
Proof.
  intros E. apply delete_node_frame in E as (Hs & n & _ & Ho).
  split; [exact Hs|]. eexists. split; [exact Ho|]. repeat constructor.
Qed.

Lemma attachedAnnotations_elem (tx : Tx) (i j : string) (n : Node) :
  (j, n) ∈ attachedAnnotations tx i <->
  is_attached_to i (j, n) = true /\ nodes tx !! j = Some n.
Proof.
  unfold attachedAnnotations. rewrite list_elem_of_filter, elem_of_map_to_list.
  reflexivity.
Qed.

(** Deep deletion of a text node: the node and the annotations attached to
    it disappear, every other node stays, and only deletions are recorded,
    that of the node last. *)
Lemma deepDeleteNode_text (tx : Tx) (i ty : string) (t : Text) :
  nodes tx !! i = Some (mkNode ty (TextData t)) ->
  exists tx' lo,
    deepDeleteNode tx i = Ok tx' /\
    nodes tx' !! i = None /\
    (forall j n, nodes tx !! j = Some n -> j <> i ->
                 is_attached_to i (j, n) = false -> nodes tx' !! j = Some n) /\
    selection tx' = selection tx /\
    ops tx' = ops tx ++ lo ++ [OpDelete i (mkNode ty (TextData t))] /\
    Forall is_delete_op lo.
Proof.
  intros Hi. unfold deepDeleteNode. simpl. rewrite Hi. simpl.
  destruct (forEach_pointwise _ _ (attachedAnnotations tx i) delete_step_spec tx)
    as (tx2 & E2 & Hl2 & Ho2).
  { apply NoDup_fst_filter, NoDup_fst_map_to_list. }
  { intros j m Hjm. apply attachedAnnotations_elem in Hjm. tauto. }
  destruct (forEach_frame is_delete_op _ delete_step_frame _ _ _ E2)
    as (Hs2 & lo & Hops2 & HQ2).
  rewrite E2. simpl.
  assert (Hi2 : nodes tx2 !! i = Some (mkNode ty (TextData t))).
  { rewrite Ho2; [exact Hi|]. intros Hin.
    apply list_elem_of_fmap in Hin as ([j' m] & -> & Hjm).
    apply attachedAnnotations_elem in Hjm as [Ha Hm]. simpl in *.
    rewrite Hi in Hm. injection Hm as <-. discriminate. }
  rewrite (delete_node_ok _ _ _ Hi2).
  eexists _, lo. split; [reflexivity|]. simpl.
  split; [apply lookup_delete_eq|].
  split.
  - intros j n Hj Hji Hatt. rewrite lookup_delete_ne by congruence.
    rewrite Ho2; [exact Hj|]. intros Hin.
    apply list_elem_of_fmap in Hin as ([j' m] & -> & Hjm).
    apply attachedAnnotations_elem in Hjm as [Ha Hm]. simpl in *. congruence.
  - split; [exact Hs2|]. rewrite Hops2, <- app_assoc. auto.
Qed.

(** ** C4: merging two text nodes *)

(** C4. Merging two adjacent text nodes, the first of which is not empty,
    appends the text of the source to the target at the target's former
    length, then transfers every annotation of the source property to the
    target property shifted by that length, then deep-deletes the source
    node, and leaves the cursor collapsed at the join. The recorded
    operations come in exactly this order: the text insert, the coordinate
    updates of the transfer, the deletions, that of the source node last. *)
Theorem mergeNodes_text_nodes (env : Collaborators) (tx : Tx)
  (c prop cty : string) (ids : list string) (pos : nat)
  (firstId secondId fty sty : string) (ft st : Text) (direction : Direction) :
  let cp := [c; prop] in
  let targetPath := getPath firstId in
  let sourcePath := getPath secondId in
  let targetLength := text_length ft in
  nodes tx !! c = Some (mkNode cty (ContainerData ids)) ->
  ids !! pos = Some firstId ->
  ids !! S pos = Some secondId ->
  firstId <> secondId ->
  nodes tx !! firstId = Some (mkNode fty (TextData ft)) ->
  nodes tx !! secondId = Some (mkNode sty (TextData st)) ->
  ft <> [] ->
  exists tx' l_transfer l_delete,
    Editing._mergeNodes env tx cp (Z.of_nat pos) direction = Ok tx' /\
    getText tx' targetPath = Some (ft ++ st) /\
    (forall i aty a b q,
        nodes tx !! i =
          Some (mkNode aty (AnnotationData (mkCoor sourcePath a) (mkCoor q b))) ->
        0 <= a ->
        nodes tx' !! i =
          Some (mkNode aty
                  (AnnotationData (mkCoor targetPath (targetLength + a))
                     (mkCoor targetPath (targetLength + b))))) /\
    nodes tx' !! secondId = None /\
    selection tx' = cursorAt targetPath targetLength (Some cp) /\
    ops tx' =
      ops tx
      ++ [OpArrayDelete cp (Z.of_nat pos + 1);
          OpTextInsert targetPath targetLength st]
      ++ l_transfer ++ l_delete
      ++ [OpDelete secondId (mkNode sty (TextData st))] /\
    Forall is_set_coordinate l_transfer /\
    Forall is_delete_op l_delete.
Proof.
  intros cp targetPath sourcePath targetLength Hc Hf Hs Hne Hfn Hsn Hft.
  subst cp.
  assert (Hcf : c <> firstId) by (intros ->; rewrite Hc in Hfn; discriminate).
  assert (Hcs : c <> secondId) by (intros ->; rewrite Hc in Hsn; discriminate).
  pose proof (lookup_lt_Some _ _ _ Hs) as Hlt.
  unfold Editing._mergeNodes, container_ids. rewrite Hc. simpl.
  unfold Editing.nth_id.
  replace (Z.of_nat pos <? 0) with false by lia.
  replace (Z.of_nat pos + 1 <? 0) with false by lia.
  rewrite Nat2Z.id, Hf. simpl. rewrite Hfn. simpl.
  replace (Z.to_nat (Z.of_nat pos + 1)) with (S pos) by lia.
  rewrite Hs. simpl. rewrite Hsn. simpl.
  assert (Hnonempty : Editing.isEmptyText ft = false).
  { unfold Editing.isEmptyText, text_length. destruct ft; [congruence|]. simpl. lia. }
  rewrite Hnonempty.
  erewrite removeAt_ok; [|exact Hc|lia]. simpl.
  unfold update_text_insert.
  erewrite text_at_getPath;
    [|simpl; rewrite lookup_insert_ne by congruence; exact Hfn].
  simpl.
  match goal with
  | |- context [transferAnnotations ?x _ _ _ _] => set (tx2 := x)
  end.
  destruct (transferAnnotations_spec tx2 (getPath secondId) 0 (getPath firstId)
              (text_length ft)) as (tx3 & lt & E3 & Hn3 & Hs3 & Ho3 & HQ3).
  rewrite E3. simpl.
  assert (Hs3n : nodes tx3 !! secondId = Some (mkNode sty (TextData st))).
  { rewrite Hn3. subst tx2. simpl.
    rewrite !lookup_insert_ne by congruence. rewrite Hsn. reflexivity. }
  destruct (deepDeleteNode_text tx3 secondId sty st Hs3n)
    as (tx4 & ld & E4 & Hgone & Hkeep & Hs4 & Ho4 & HQ4).
  rewrite E4. simpl.
  eexists _, lt, ld. split; [reflexivity|].
  subst targetPath sourcePath. cbn [nodes selection ops setSelection].
  split.
  { unfold getText. erewrite text_at_getPath; [reflexivity|].
    apply Hkeep; [|congruence|reflexivity].
    rewrite Hn3. subst tx2. simpl. rewrite lookup_insert_eq. simpl.
    subst targetLength. rewrite text_insert_at_end. reflexivity. }
  split.
  { intros i aty a b q Hi Ha.
    assert (i <> c) by (intros E; rewrite E, Hc in Hi; discriminate).
    assert (i <> firstId) by (intros E; rewrite E, Hfn in Hi; discriminate).
    assert (i <> secondId) by (intros E; rewrite E, Hsn in Hi; discriminate).
    apply Hkeep; [|assumption|].
    - rewrite Hn3. subst tx2. simpl.
      rewrite !lookup_insert_ne by congruence. rewrite Hi. simpl.
      unfold is_anno_on. simpl. rewrite bool_decide_eq_true_2 by reflexivity.
      unfold transferred. simpl. replace (0 <=? a) with true by lia.
      subst targetLength. repeat f_equal; lia.
    - unfold is_attached_to. simpl. apply bool_decide_eq_false_2. congruence. }
  split; [exact Hgone|].
  split; [reflexivity|].
  split; [|auto].
  rewrite Ho4, Ho3. subst tx2. simpl. rewrite <- !app_assoc. reflexivity.
Qed.

Lemma mergeNodes_text_nodes_witness :
  exists tx',
    Editing._mergeNodes idle (sample_tx NullSelection) body 0 DirRight = Ok tx' /\
    getText tx' (getPath "p1") = Some (abcdefgh ++ [105; 106; 107]) /\
    nodes tx' !! "a3"%string = Some (strong (getPath "p1") 9 11) /\
    nodes tx' !! "p2"%string = None /\
    selection tx' = cursorAt (getPath "p1") 8 (Some body).
Proof.
  destruct (mergeNodes_text_nodes idle (sample_tx NullSelection)
              "body" "nodes" "container" ["p1"; "p2"; "p3"]%string 0
              "p1" "p2" "paragraph" "paragraph" abcdefgh [105; 106; 107] DirRight)
    as (tx' & lt & ld & E & Ht & Ha & Hgone & Hsel & _);
    [reflexivity | reflexivity | reflexivity | discriminate | reflexivity
    | reflexivity | discriminate |].
  exists tx'. split; [exact E|]. split; [exact Ht|].
  split; [|split; [exact Hgone|exact Hsel]].
  apply (Ha "a3"%string "strong"%string 1 3 (getPath "p2")); [reflexivity|lia].
Defined.

(** ** C5: fusing annotations *)

Lemma coor_ltb_irrefl (tx : Tx) (c : Coordinate) : coor_ltb tx c c = false.
Proof. unfold coor_ltb. lia. Qed.

Lemma coor_ltb_trans (tx : Tx) (a b c : Coordinate) :
  coor_ltb tx a b = true -> coor_ltb tx b c = true -> coor_ltb tx a c = true.
Proof. unfold coor_ltb. lia. Qed.

Lemma coor_ltb_le_trans (tx : Tx) (a b c : Coordinate) :
  coor_ltb tx a b = true -> coor_ltb tx c b = false -> coor_ltb tx a c = true.
Proof. unfold coor_ltb. lia. Qed.

Lemma coor_le_lt_trans (tx : Tx) (a b c : Coordinate) :
  coor_ltb tx b a = false -> coor_ltb tx c a = true -> coor_ltb tx b c = false.
Proof. unfold coor_ltb. lia. Qed.

Lemma coor_leb_trans (tx : Tx) (a b c : Coordinate) :
  coor_ltb tx b a = false -> coor_ltb tx c b = false -> coor_ltb tx c a = false.
Proof. unfold coor_ltb. lia. Qed.

(** [earliest] returns the first annotation among those with the least
    start. *)
Lemma earliest_spec (tx : Tx) (rest : list (string * Node)) :
  forall (pre : list (string * Node)) (best : string * Node) (kb : nat),
    pre !! kb = Some best ->
    (forall k a, pre !! k = Some a ->
                 coor_ltb tx (anno_start a.2) (anno_start best.2) = false) ->
    (forall k a, pre !! k = Some a -> (k < kb)%nat ->
                 coor_ltb tx (anno_start best.2) (anno_start a.2) = true) ->
    exists k,
      (pre ++ rest) !! k = Some (earliest tx best rest) /\
      (forall k' a, (pre ++ rest) !! k' = Some a ->
                    coor_ltb tx (anno_start a.2)
                      (anno_start (earliest tx best rest).2) = false) /\
      (forall k' a, (pre ++ rest) !! k' = Some a -> (k' < k)%nat ->
                    coor_ltb tx (anno_start (earliest tx best rest).2)
                      (anno_start a.2) = true).
Proof.
  induction rest as [|a rest IH]; intros pre best kb Hb Hmin Hfirst.
  - exists kb. rewrite app_nil_r. simpl. auto.
  - simpl. replace (pre ++ a :: rest) with ((pre ++ [a]) ++ rest)
      by (rewrite <- app_assoc; reflexivity).
    pose proof (lookup_lt_Some _ _ _ Hb) as Hkb.
    destruct (coor_ltb tx (anno_start a.2) (anno_start best.2)) eqn:Elt.
    + apply (IH (pre ++ [a]) a (length pre)).
      * rewrite lookup_app_r, Nat.sub_diag by lia. reflexivity.
      * intros k x Hx. apply lookup_app_Some in Hx as [Hx|[_ Hx]].
        -- eapply coor_le_lt_trans; [eapply Hmin; exact Hx|exact Elt].
        -- apply list_lookup_singleton_Some in Hx as [_ <-].
           apply coor_ltb_irrefl.
      * intros k x Hx Hk. rewrite lookup_app_l in Hx by exact Hk.
        eapply coor_ltb_le_trans; [exact Elt|eapply Hmin; exact Hx].
    + apply (IH (pre ++ [a]) best kb).
      * rewrite lookup_app_l by exact Hkb. exact Hb.
      * intros k x Hx. apply lookup_app_Some in Hx as [Hx|[_ Hx]].
        -- eapply Hmin; exact Hx.
        -- apply list_lookup_singleton_Some in Hx as [_ <-]. exact Elt.
      * intros k x Hx Hk. rewrite lookup_app_l in Hx by lia.
        eapply Hfirst; eauto.
Qed.

(** [latest_end] returns an end that no annotation exceeds. *)
Lemma latest_end_spec (tx : Tx) (rest : list (string * Node)) :
  forall best : Coordinate,
    coor_ltb tx (latest_end tx best rest) best = false /\
    (forall a, a ∈ rest ->
               coor_ltb tx (latest_end tx best rest) (anno_end a.2) = false) /\
    (latest_end tx best rest = best \/
     exists a, a ∈ rest /\ anno_end a.2 = latest_end tx best rest).
Proof.
  induction rest as [|a rest IH]; intros best; simpl.
  - split; [apply coor_ltb_irrefl|]. split; [|auto].
    intros a Ha. inversion Ha.
  - destruct (coor_ltb tx best (anno_end a.2)) eqn:Elt.
    + destruct (IH (anno_end a.2)) as (H1 & H2 & H3). split; [|split].
      * unfold coor_ltb in *. lia.
      * intros x Hx. apply elem_of_cons in Hx as [->|Hx]; auto.
      * right. destruct H3 as [H3|(x & Hx & H3)].
        -- exists a. split; [left|auto].
        -- exists x. split; [right; exact Hx|exact H3].
    + destruct (IH best) as (H1 & H2 & H3). split; [exact H1|split].
      * intros x Hx. apply elem_of_cons in Hx as [->|Hx]; auto.
        unfold coor_ltb in *. lia.
      * destruct H3 as [H3|(x & Hx & H3)]; [left; exact H3|].
        right. exists x. split; [right; exact Hx|exact H3].
Qed.

(** The loop that deletes all annotations but the survivor. *)
Lemma delete_unless_loop (keep : string) (l : list (string * Node)) :
  forall tx : Tx,
    NoDup l.*1 ->
    (forall j, j ∈ l.*1 -> is_Some (nodes tx !! j)) ->
    exists tx',
      forEach (delete_unless keep) l tx = Ok tx' /\
      (forall j, j ∈ l.*1 -> j <> keep -> nodes tx' !! j = None) /\
      (forall j, j ∉ l.*1 \/ j = keep -> nodes tx' !! j = nodes tx !! j).
Proof.
  induction l as [|[i n] l IH]; intros tx Hnd Hin.
  - exists tx. split; [reflexivity|]. split; [|reflexivity].
    intros j Hj. inversion Hj.
  - simpl in Hnd. apply NoDup_cons in Hnd as [Hi Hnd].
    assert (exists tx1, delete_unless keep tx (i, n) = Ok tx1 /\
                        (i <> keep -> nodes tx1 !! i = None) /\
                        (forall j, j <> i \/ j = keep ->
                                   nodes tx1 !! j = nodes tx !! j))
      as (tx1 & E1 & Hd1 & Ho1).
    { unfold delete_unless. simpl. case_bool_decide as Hk.
      - exists tx. split; [reflexivity|]. split; [congruence|reflexivity].
      - destruct (Hin i) as [m Hm]; [left|].
        rewrite (delete_node_ok _ _ _ Hm). eexists. split; [reflexivity|]. simpl.
        split; [intros _; apply lookup_delete_eq|].
        intros j [Hj| ->]; apply lookup_delete_ne; congruence. }
    destruct (IH tx1 Hnd) as (tx' & E' & Hd' & Ho').
    { intros j Hj. rewrite Ho1; [apply Hin; right; exact Hj|].
      left. intros ->. contradiction. }
    exists tx'. simpl. rewrite E1. simpl. split; [exact E'|]. split.
    + intros j Hj Hjk. apply elem_of_cons in Hj as [->|Hj].
      * rewrite Ho' by (left; exact Hi). auto.
      * auto.
    + intros j Hj. rewrite Ho'.
      * apply Ho1. destruct Hj as [Hj|Hj]; [|auto].
        left. intros ->. apply Hj. left.
      * destruct Hj as [Hj|Hj]; [|auto]. left. intros Hx. apply Hj. right. exact Hx.
Qed.

(** C5. Fusing two or more annotations of the document collapses them into
    the one that starts earliest, the first in input order among those that
    start together: the survivor keeps its start, which no other start
    precedes, its end becomes the latest end among them, and every other
    annotation given is gone from the document afterwards. *)
Theorem fuseAnnotation_collapses (tx : Tx) (annos : list (string * Node)) :
  (2 <= length annos)%nat ->
  NoDup annos.*1 ->
  (forall i n, (i, n) ∈ annos ->
               nodes tx !! i = Some n /\
               exists st en, data n = AnnotationData st en) ->
  exists tx' k i ty st en e,
    fuseAnnotation tx annos = Ok tx' /\
    annos !! k = Some (i, mkNode ty (AnnotationData st en)) /\
    nodes tx' !! i = Some (mkNode ty (AnnotationData st e)) /\
    (forall j n, (j, n) ∈ annos ->
                 coor_leb tx st (anno_start n) = true /\
                 coor_leb tx (anno_end n) e = true) /\
    (exists j n, (j, n) ∈ annos /\ anno_end n = e) /\
    (forall k' j n, annos !! k' = Some (j, n) -> (k' < k)%nat ->
                    coor_ltb tx st (anno_start n) = true) /\
    (forall j n, (j, n) ∈ annos -> j <> i -> nodes tx' !! j = None).
Proof.
  intros Hlen Hnd Hin.
  destruct annos as [|first [|second rest]]; simpl in Hlen; try lia.
  set (annos := first :: second :: rest) in *.
  destruct (earliest_spec tx (second :: rest) [first] first 0 eq_refl)
    as (k & Hk & Hmin & Hfirst).
  { intros k a Ha. apply list_lookup_singleton_Some in Ha as [_ <-].
    apply coor_ltb_irrefl. }
  { intros k a _ Hk. lia. }
  change ([first] ++ second :: rest) with annos in Hk, Hmin, Hfirst.
  destruct (latest_end_spec tx (second :: rest) (anno_end first.2))
    as (He1 & He2 & He3).
  set (e := latest_end tx (anno_end first.2) (second :: rest)) in *.
  destruct (earliest tx first (second :: rest)) as [i n] eqn:Es.
  destruct (Hin i n) as [Hi (st & en & Hd)].
  { eapply list_elem_of_lookup_2. exact Hk. }
  destruct n as [ty d]. simpl in Hd. subst d.
  unfold fuseAnnotation. subst annos. cbv beta iota zeta. rewrite Es. fold e.
  set (annos := first :: second :: rest) in *. cbn [fst].
  rewrite (set_coordinate_ok _ _ _ _ _ _ _ Hi). cbn [bind].
  match goal with
  | |- context [forEach _ _ ?x] => set (tx1 := x)
  end.
  destruct (delete_unless_loop i annos tx1 Hnd) as (tx' & E' & Hgone & Hkeep).
  { intros j Hj. apply list_elem_of_fmap in Hj as ([j' m] & -> & Hjm).
    subst tx1. simpl. destruct (decide (j' = i)) as [->|Hne].
    - rewrite lookup_insert_eq. eauto.
    - rewrite lookup_insert_ne by congruence. destruct (Hin _ _ Hjm) as [-> _]. eauto. }
  exists tx', k, i, ty, st, en, e. simpl in E'. simpl. rewrite E'.
  split; [reflexivity|]. split; [exact Hk|].
  split.
  { rewrite Hkeep by (right; reflexivity). subst tx1. simpl.
    apply lookup_insert_eq. }
  split.
  { intros j m Hjm. apply list_elem_of_lookup_1 in Hjm as [k' Hk'].
    unfold coor_leb. split.
    - apply negb_true_iff. exact (Hmin _ _ Hk').
    - subst annos. destruct k' as [|k']; simpl in Hk'.
      + injection Hk' as Hf. rewrite Hf in He1. apply negb_true_iff. exact He1.
      + assert (Hx : (j, m) ∈ second :: rest)
          by (eapply list_elem_of_lookup_2; exact Hk').
        apply negb_true_iff. exact (He2 _ Hx). }
  split.
  { destruct He3 as [He3|([j m] & Hjm & He3)].
    - destruct first as [j m]. exists j, m. split; [left|auto].
    - exists j, m. split; [right; exact Hjm|exact He3]. }
  split.
  { intros k' j m Hk' Hlt. apply (Hfirst _ _ Hk' Hlt). }
  intros j m Hjm Hne. apply Hgone; [|exact Hne].
  apply list_elem_of_fmap. exists (j, m). auto.
Qed.

Lemma fuseAnnotation_collapses_witness :
  exists tx',
    fuseAnnotation (sample_tx (PropertySelection (getPath "p1") 1 6 None))
      [("a1"%string, strong (getPath "p1") 1 2);
       ("a2"%string, strong (getPath "p1") 4 6)] = Ok tx' /\
    nodes tx' !! "a1"%string = Some (strong (getPath "p1") 1 6) /\
    nodes tx' !! "a2"%string = None.
Proof.
  destruct (fuseAnnotation_collapses
              (sample_tx (PropertySelection (getPath "p1") 1 6 None))
              [("a1"%string, strong (getPath "p1") 1 2);
               ("a2"%string, strong (getPath "p1") 4 6)])
    as (tx' & k & i & ty & st & en & e & E & _).
  - simpl. lia.
  - apply (bool_decide_unpack _). vm_compute. reflexivity.
  - intros i n Hin. apply elem_of_cons in Hin as [[= -> ->]|Hin].
    + split; [reflexivity|]. eexists _, _. reflexivity.
    + apply list_elem_of_singleton in Hin as [= -> ->].
      split; [reflexivity|]. eexists _, _. reflexivity.
  - exists tx'. split; [exact E|].
    vm_compute in E. injection E as <-. split; reflexivity.
Defined.

(** ** C8: the history of a session *)

Section SessionFacts.

Import DocumentSession.

Context {D : Type}.
Context (_apply : D -> DocumentChange -> Result D).
Context (setState : D -> list (string * string) -> D * list string).

Lemma notify_history (s : Session (D := D)) (c : DocumentChange) :
  _history (_notifyChangeListeners s c) =
  _history s ++ (if decide (change_ops c = []) then [] else [c]) /\
  delivered (_notifyChangeListeners s c) =
  delivered s
  ++ ((fun l => DocumentChanged l c) <$> listenersBefore s)
  ++ ((fun l => DocumentChanged l c) <$> listenersAfter s) /\
  listenersBefore (_notifyChangeListeners s c) = listenersBefore s /\
  listenersAfter (_notifyChangeListeners s c) = listenersAfter s /\
  changeListeners (_notifyChangeListeners s c) = changeListeners s /\
  _document (_notifyChangeListeners s c) = _document s.
Proof.
  unfold _notifyChangeListeners, _onDocumentChange.
  destruct (change_ops c) as [|op l] eqn:E; simpl.
  - rewrite app_nil_r, <- app_assoc. repeat split; reflexivity.
  - rewrite <- app_assoc. repeat split; reflexivity.
Qed.

Lemma commit_one (now : Z) (s : Session (D := D)) (c : DocumentChange) (d' : D) :
  _apply (_document s) (stamp c now) = Ok d' ->
  exists s',
    _commitChange _apply now s (Some c) = Ok s' /\
    _history s' =
      _history s ++ (if decide (change_ops c = []) then [] else [stamp c now]) /\
    delivered s' = delivered s ++ deliveries_of s (stamp c now) /\
    listenersBefore s' = listenersBefore s /\
    listenersAfter s' = listenersAfter s /\
    changeListeners s' = changeListeners s.
Proof.
  intros Ha. unfold _commitChange, _applyChange. rewrite Ha. simpl.
  eexists. split; [reflexivity|].
  match goal with
  | |- context [_notifyChangeListeners ?x ?y] =>
      destruct (notify_history x y) as (H1 & H2 & H3 & H4 & H5 & H6)
  end.
  unfold emit_change, deliver. simpl in *.
  rewrite H1, H2, H3, H4, H5. unfold deliveries_of. simpl.
  rewrite <- !app_assoc. auto.
Qed.

Lemma updateNodeStates_history (s : Session (D := D))
  (tuples : list (string * string)) (silent : bool) :
  _history (updateNodeStates setState s tuples silent) = _history s.
Proof.
  unfold updateNodeStates. destruct (setState (_document s) tuples) as [d touched].
  destruct silent; [reflexivity|].
  unfold emit_change, deliver. cbn [_history].
  match goal with
  | |- context [_notifyChangeListeners ?x ?y] =>
      destruct (notify_history x y) as (H1 & _)
  end.
  rewrite H1. simpl. apply app_nil_r.
Qed.

Lemma deliveries_of_same_listeners (s s' : Session (D := D)) (c : DocumentChange) :
  listenersBefore s' = listenersBefore s ->
  listenersAfter s' = listenersAfter s ->
  changeListeners s' = changeListeners s ->
  deliveries_of s' c = deliveries_of s c.
Proof. unfold deliveries_of. intros -> -> ->. reflexivity. Qed.

(** C8, as the code has it. The history of a session is append-only: of a
    sequence of committed changes, those that carry at least one operation
    are appended to the history in commit order, whatever was recorded
    before stays in place as a prefix, no other method of the session
    touches the history, and every commit delivers its change exactly once
    to every listener. *)
Theorem history_is_append_only (s : Session (D := D))
  (cs : list (DocumentChange * Z)) :
  (forall d c, exists d', _apply d c = Ok d') ->
  exists s',
    commitAll _apply s cs = Ok s' /\
    _history s' = _history s ++ recorded cs /\
    delivered s' =
      delivered s
      ++ concat ((fun cn => deliveries_of s (stamp cn.1 cn.2)) <$> cs) /\
    (forall tuples silent,
        _history (updateNodeStates setState s' tuples silent) = _history s').
Proof.
  intros Htotal. revert s. induction cs as [|[c now] cs IH]; intros s.
  - exists s. simpl. unfold recorded. simpl. rewrite !app_nil_r.
    split; [reflexivity|]. split; [reflexivity|]. split; [reflexivity|].
    intros tuples silent. apply updateNodeStates_history.
  - destruct (Htotal (_document s) (stamp c now)) as [d' Hd'].
    destruct (commit_one now s c d' Hd') as (s1 & E1 & H1 & D1 & L1 & L2 & L3).
    destruct (IH s1) as (s' & E' & H' & D' & U').
    exists s'. cbn [commitAll]. rewrite E1. cbn [bind]. split; [exact E'|].
    split; [|split; [|exact U']].
    + rewrite H', H1, <- app_assoc. f_equal. unfold recorded. simpl.
      rewrite filter_cons. simpl.
      destruct (decide (change_ops c = [])) as [Hc|Hc];
        destruct (decide (change_ops c <> [])); try contradiction; reflexivity.
    + rewrite D', D1, <- app_assoc. f_equal. simpl. f_equal. f_equal.
      apply list_fmap_ext. intros i cn _.
      apply deliveries_of_same_listeners; assumption.
Qed.

End SessionFacts.

(** A committed transaction that recorded no operation is delivered to the
    listeners but is not appended to the history. *)
Lemma commit_without_operations_is_not_recorded :
  exists s',
    DocumentSession._commitChange apply_nothing 7 sample_session
      (Some cursor_change) = Ok s' /\
    DocumentSession.delivered s' =
      deliveries_of sample_session (DocumentSession.stamp cursor_change 7) /\
    (DocumentSession.stamp cursor_change 7 ∉ DocumentSession._history s') /\
    DocumentSession._history s' = [].
Proof.
  eexists. split; [reflexivity|]. simpl.
  split; [reflexivity|]. split; [|reflexivity]. apply not_elem_of_nil.
Qed.

Lemma history_is_append_only_witness :
  exists s',
    DocumentSession.commitAll apply_nothing sample_session
      [(typing_change, 5); (cursor_change, 7)] = Ok s' /\
    DocumentSession._history s' = [DocumentSession.stamp typing_change 5] /\
    length (DocumentSession.delivered s') = 6%nat.
Proof.
  destruct (history_is_append_only apply_nothing (fun d _ => (d, []))
              sample_session [(typing_change, 5); (cursor_change, 7)])
    as (s' & E & H & Dl & _).
  - intros d c. exists d. reflexivity.
  - exists s'. split; [exact E|]. split; [exact H|]. rewrite Dl. reflexivity.
Defined.

(** ** C9: rendering and transactions are not re-entrant *)





(** ** C6: completeness of an index *)

Section IndexFacts.

Import DocumentIndex.

Lemma warm_up_calls (sel : DNode -> bool) (l : list DNode) :
  forall ix : Index,
    select ix = sel ->
    calls (foldl (fun acc n => notify CCreate n acc) ix l) =
    calls ix ++ warm_up sel l
    /\ select (foldl (fun acc n => notify CCreate n acc) ix l) = sel.
Proof.
  unfold warm_up. induction l as [|n l IH]; intros ix Hsel; simpl.
  - rewrite app_nil_r. auto.
  - destruct (IH (notify CCreate n ix)) as [Hc Hs]; [exact Hsel|].
    rewrite Hc, Hs. split; [|reflexivity].
    unfold notify, called. simpl. rewrite Hsel, <- app_assoc. reflexivity.
Qed.

Lemma callCount_app (which : Call -> bool) (l1 l2 : list Call) :
  callCount which (l1 ++ l2) = (callCount which l1 + callCount which l2)%nat.
Proof. unfold callCount. rewrite filter_app, length_app. reflexivity. Qed.

Lemma warm_up_counts (sel : DNode -> bool) (l : list DNode) :
  callCount is_create (warm_up sel l) = length (filter (fun n => sel n = true) l) /\
  callCount is_select (warm_up sel l) = length l /\
  (forall n, CCreate n ∈ warm_up sel l <-> n ∈ l /\ sel n = true).
Proof.
  unfold warm_up. induction l as [|m l (IH1 & IH2 & IH3)].
  - simpl. split; [reflexivity|]. split; [reflexivity|].
    intros n. split; [intros H; inversion H|intros [H _]; inversion H].
  - rewrite fmap_cons. cbn [concat length].
    rewrite !callCount_app, IH1, IH2, filter_cons.
    split; [|split].
    + destruct (sel m) eqn:E; reflexivity.
    + destruct (sel m); reflexivity.
    + intros n. rewrite elem_of_app, IH3.
      destruct (sel m) eqn:E; cbn [app]; rewrite !elem_of_cons, ?elem_of_nil.
      * split.
        -- intros [[H|[H|[]]]|[H Hs]];
             [discriminate
             |injection H as ->; split; [left; reflexivity|exact E]
             |split; [right; exact H|exact Hs]].
        -- intros [[->|H] Hs];
             [left; right; left; reflexivity|right; split; assumption].
      * split.
        -- intros [[H|[]]|[H Hs]];
             [discriminate|split; [right; exact H|exact Hs]].
        -- intros [[->|H] Hs]; [congruence|right; split; assumption].
Qed.

Lemma getIndex_notify_all (callback : DNode -> Call) (n : DNode)
  (d : Document) (name : string) :
  getIndex (notify_all callback n d) name =
  notify callback n <$> getIndex d name.
Proof.
  unfold getIndex, notify_all. cbn [indices].
  induction (indices d) as [|[nm ix] l IH]; [reflexivity|].
  rewrite fmap_cons. cbn [list_find prod_map fst snd].
  destruct (decide (nm = name)) as [->|Hne]; [reflexivity|].
  destruct (list_find _ (_ <$> l)) as [[k [nm1 ix1]]|];
    destruct (list_find _ l) as [[k' [nm2 ix2]]|];
    simpl in *; congruence.
Qed.

(** C6. Attaching an index warms it up: afterwards its [create] callback
    has been called exactly once for every node that matched at that time,
    so [create.callCount] is the number of matching nodes (and
    [select.callCount] the number of nodes). From then on every [create],
    [delete], [set] or [update] of a matching node makes exactly one call
    of the corresponding callback, [update] with the node, the path, the
    new value and the old value. *)
Theorem index_completeness (d : Document) (name : string)
  (sel : DNode -> bool) :
  name ∉ (indices d).*1 ->
  (exists ix,
      getIndex (addIndex d name (mkIndex sel [])) name = Some ix /\
      select ix = sel /\
      callCount is_create (calls ix) =
        length (filter (fun n => sel n = true) (getNodes d)) /\
      callCount is_select (calls ix) = size (nodes d) /\
      (forall n, CCreate n ∈ calls ix <-> n ∈ getNodes d /\ sel n = true)) /\
  (forall d' ix,
      getIndex d' name = Some ix ->
      (forall n, select ix n = true ->
                 exists ix',
                   getIndex (create d' n) name = Some ix' /\
                   calls ix' = calls ix ++ [CSelect n; CCreate n]) /\
      (forall i n, nodes d' !! i = Some n -> select ix n = true ->
                   exists d2 ix',
                     delete d' i = Ok d2 /\
                     getIndex d2 name = Some ix' /\
                     calls ix' = calls ix ++ [CSelect n; CDelete n]) /\
      (forall i prop v n,
          nodes d' !! i = Some n -> select ix (set_prop n prop v) = true ->
          exists d2 ix',
            set d' [i; prop] v = Ok d2 /\
            getIndex d2 name = Some ix' /\
            calls ix' =
              calls ix
              ++ [CSelect (set_prop n prop v);
                  CUpdate (set_prop n prop v) [i; prop] v (get_prop n prop)]) /\
      (forall i prop diff v n,
          nodes d' !! i = Some n ->
          apply_diff (get_prop n prop) diff = Ok v ->
          select ix (set_prop n prop v) = true ->
          exists d2 ix',
            update d' [i; prop] diff = Ok d2 /\
            getIndex d2 name = Some ix' /\
            calls ix' =
              calls ix
              ++ [CSelect (set_prop n prop v);
                  CUpdate (set_prop n prop v) [i; prop] v (get_prop n prop)])).
Proof.
  intros Hfresh. split.
  - destruct (warm_up_calls sel (getNodes d) (called (mkIndex sel []) [CClear]) eq_refl)
      as [Hc Hs].
    destruct (warm_up_counts sel (getNodes d)) as (H1 & H2 & H3).
    eexists. split; [|split; [exact Hs|]].
    + unfold getIndex, addIndex. cbn [indices].
      rewrite list_find_app_r.
      * simpl. rewrite decide_True by reflexivity. reflexivity.
      * apply list_find_None, Forall_forall. intros [nm ix] Hin Heq.
        simpl in Heq. subst nm. apply Hfresh.
        apply list_elem_of_fmap. exists (name, ix). auto.
    + rewrite Hc. cbn [calls called app].
      change (CClear :: warm_up sel (getNodes d))
        with ([CClear] ++ warm_up sel (getNodes d)).
      rewrite !callCount_app, H1, H2.
      split; [reflexivity|]. split.
      * unfold getNodes. rewrite length_fmap, length_map_to_list. reflexivity.
      * intros n. rewrite elem_of_app, H3. split; [|tauto].
        intros [H|H]; [|exact H].
        apply list_elem_of_singleton in H. discriminate.
  - intros d' ix Hix. split; [|split; [|split]].
    + intros n Hn. unfold create. rewrite getIndex_notify_all.
      change (getIndex (mkDocument _ (indices d')) name) with (getIndex d' name).
      rewrite Hix. exists (notify CCreate n ix). split; [reflexivity|].
      unfold notify, called. cbn [calls]. rewrite Hn. reflexivity.
    + intros i n Hi Hn. unfold delete. rewrite Hi.
      eexists _, (notify CDelete n ix).
      split; [reflexivity|]. rewrite getIndex_notify_all.
      change (getIndex (mkDocument _ (indices d')) name) with (getIndex d' name).
      rewrite Hix. split; [reflexivity|].
      unfold notify, called. cbn [calls]. rewrite Hn. reflexivity.
    + intros i prop v n Hi Hn. unfold set. rewrite Hi.
      eexists _, (notify _ (set_prop n prop v) ix).
      split; [reflexivity|]. rewrite getIndex_notify_all.
      change (getIndex (mkDocument _ (indices d')) name) with (getIndex d' name).
      rewrite Hix. split; [reflexivity|].
      unfold notify, called. cbn [calls]. rewrite Hn. reflexivity.
    + intros i prop diff v n Hi Hv Hn. unfold update. rewrite Hi, Hv. cbn [bind].
      eexists _, (notify _ (set_prop n prop v) ix).
      split; [reflexivity|]. rewrite getIndex_notify_all.
      change (getIndex (mkDocument _ (indices d')) name) with (getIndex d' name).
      rewrite Hix. split; [reflexivity|].
      unfold notify, called. cbn [calls]. rewrite Hn. reflexivity.
Qed.

End IndexFacts.

Lemma index_completeness_witness :
  exists ix,
    DocumentIndex.getIndex
      (DocumentIndex.addIndex sample_document "test"
         (DocumentIndex.mkIndex (fun _ => true) [])) "test" = Some ix /\
    DocumentIndex.callCount DocumentIndex.is_create (DocumentIndex.calls ix) = 5%nat /\
    DocumentIndex.callCount DocumentIndex.is_select (DocumentIndex.calls ix) = 5%nat.
Proof.
  destruct (index_completeness sample_document "test" (fun _ => true))
    as [(ix & Hget & _ & Hcreate & Hselect & _) _].
  - simpl. apply not_elem_of_nil.
  - exists ix. split; [exact Hget|]. rewrite Hcreate, Hselect.
    split; reflexivity.
Defined.

(** ** C2: parent links *)

Section ParentFacts.

Import DocumentIndex ParentNode.

Context (owned : Owned).

Lemma getParent_Some (doc : gmap string DNode) (a b : string) (n : DNode) :
  doc !! a = Some n ->
  is_Some (owns owned n b) ->
  sole_owner owned doc a b ->
  getParent owned doc b = Some n.
Proof.
  intros Ha Ho Hsole. unfold getParent.
  destruct (list_find _ (map_to_list doc)) as [[k [a' n']]|] eqn:E; simpl.
  - apply list_find_Some in E as (Hk & HP & _). simpl in HP.
    apply bool_decide_eq_true in HP.
    apply list_elem_of_lookup_2, elem_of_map_to_list in Hk.
    pose proof (Hsole _ _ Hk HP) as ->. congruence.
  - apply list_find_None in E. rewrite Forall_forall in E.
    exfalso. apply (E (a, n)).
    + apply elem_of_map_to_list. exact Ha.
    + simpl. apply bool_decide_eq_true. exact Ho.
Qed.

Lemma getParent_None (doc : gmap string DNode) (b : string) :
  (forall a n, doc !! a = Some n -> owns owned n b = None) ->
  getParent owned doc b = None.
Proof.
  intros Hnone. unfold getParent.
  destruct (list_find _ (map_to_list doc)) as [[k [a' n']]|] eqn:E;
    [|reflexivity].
  apply list_find_Some in E as (Hk & HP & _). simpl in HP.
  apply bool_decide_eq_true in HP.
  apply list_elem_of_lookup_2, elem_of_map_to_list in Hk.
  rewrite (Hnone _ _ Hk) in HP. destruct HP as [? HP]. discriminate.
Qed.

Lemma owns_Some (n : DNode) (b prop : string) (v : Value) :
  props n !! prop = Some v ->
  owned (type n) prop = true ->
  holds v b = true ->
  is_Some (owns owned n b).
Proof.
  intros Hp Ho Hh. unfold owns.
  destruct (list_find _ (map_to_list (props n))) as [r|] eqn:E; [eauto|].
  apply list_find_None in E. rewrite Forall_forall in E. exfalso.
  apply (E (prop, v)).
  - apply elem_of_map_to_list. exact Hp.
  - unfold owning_prop. simpl. rewrite Ho, Hh. reflexivity.
Qed.

Lemma owns_None (n : DNode) (b : string) :
  (forall prop v, props n !! prop = Some v -> owned (type n) prop = true ->
                  holds v b = false) ->
  owns owned n b = None.
Proof.
  intros Hnone. unfold owns.
  destruct (list_find _ (map_to_list (props n))) as [[k [prop v]]|] eqn:E;
    [|reflexivity].
  apply list_find_Some in E as (Hk & HP & _).
  apply list_elem_of_lookup_2, elem_of_map_to_list in Hk.
  unfold owning_prop in HP. simpl in HP. apply andb_true_iff in HP as [Ho Hh].
  rewrite (Hnone _ _ Hk Ho) in Hh. discriminate.
Qed.

Lemma owns_inv (n : DNode) (b : string) :
  is_Some (owns owned n b) ->
  exists prop v, props n !! prop = Some v /\ owned (type n) prop = true /\
                 holds v b = true.
Proof.
  unfold owns. intros [r Hr].
  destruct (list_find _ (map_to_list (props n))) as [[k [prop v]]|] eqn:E;
    [|discriminate].
  apply list_find_Some in E as (Hk & HP & _).
  apply list_elem_of_lookup_2, elem_of_map_to_list in Hk.
  unfold owning_prop in HP. simpl in HP. apply andb_true_iff in HP as [Ho Hh].
  eauto.
Qed.

Lemma parent_creation_order (doc : gmap string DNode) (A B : DNode) :
  id A <> id B ->
  is_Some (owns owned A (id B)) ->
  owns owned B (id B) = None ->
  (forall a n, doc !! a = Some n -> owns owned n (id B) = None) ->
  getParent owned (create (create doc B) A) (id B) = Some A /\
  getParent owned (create (create doc A) B) (id B) = Some A.
Proof.
  intros Hne HA HB Hdoc. unfold create. split.
  - apply (getParent_Some _ (id A)); [apply lookup_insert_eq|exact HA|].
    intros a' n' Hn' Ho'. destruct (decide (a' = id A)) as [->|H1]; [reflexivity|].
    rewrite lookup_insert_ne in Hn' by congruence.
    destruct (decide (a' = id B)) as [->|H2].
    + rewrite lookup_insert_eq in Hn'. injection Hn' as <-.
      rewrite HB in Ho'. destruct Ho' as [? Ho']. discriminate.
    + rewrite lookup_insert_ne in Hn' by congruence.
      rewrite (Hdoc _ _ Hn') in Ho'. destruct Ho' as [? Ho']. discriminate.
  - apply (getParent_Some _ (id A));
      [rewrite lookup_insert_ne by congruence; apply lookup_insert_eq|exact HA|].
    intros a' n' Hn' Ho'. destruct (decide (a' = id A)) as [->|H1]; [reflexivity|].
    destruct (decide (a' = id B)) as [->|H2].
    + rewrite lookup_insert_eq in Hn'. injection Hn' as <-.
      rewrite HB in Ho'. destruct Ho' as [? Ho']. discriminate.
    + rewrite !lookup_insert_ne in Hn' by congruence.
      rewrite (Hdoc _ _ Hn') in Ho'. destruct Ho' as [? Ho']. discriminate.
Qed.

Lemma parent_after_unlink (doc : gmap string DNode) (a b P : string)
  (A B : DNode) (v' : Value) :
  doc !! a = Some A ->
  doc !! b = Some B ->
  id B = b ->
  a <> b ->
  sole_owner owned doc a b ->
  (forall p v, props A !! p = Some v -> owned (type A) p = true ->
               holds v b = true -> p = P) ->
  holds v' b = false ->
  set doc a P v' !! b = Some B /\
  getParent owned (set doc a P v') b = None /\
  toArray (getXpath owned (set doc a P v') B) = [mkXEntry b (type B) None None].
Proof.
  intros Ha Hb Hid Hab Hsole Honly Hv'. unfold set. rewrite Ha.
  assert (Hnone : getParent owned (<[a := set_prop A P v']> doc) b = None).
  { apply getParent_None. intros a' n' Hn'.
    destruct (decide (a' = a)) as [->|Hne].
    - rewrite lookup_insert_eq in Hn'. injection Hn' as <-.
      apply owns_None. intros p v Hp Ho. simpl in Hp, Ho.
      destruct (decide (p = P)) as [->|HpP].
      + rewrite lookup_insert_eq in Hp. injection Hp as <-. exact Hv'.
      + rewrite lookup_insert_ne in Hp by congruence.
        destruct (holds v b) eqn:Hh; [|reflexivity].
        destruct (HpP (Honly _ _ Hp Ho Hh)).
    - rewrite lookup_insert_ne in Hn' by congruence.
      destruct (owns owned n' b) eqn:Eo; [|reflexivity].
      destruct (Hne (Hsole _ _ Hn' (mk_is_Some _ _ Eo))). }
  split; [rewrite lookup_insert_ne by congruence; exact Hb|].
  split; [exact Hnone|].
  unfold getXpath. destruct (size _) as [|fuel]; cbn [xpath].
  - simpl. rewrite Hid. reflexivity.
  - rewrite Hid, Hnone. reflexivity.
Qed.

Lemma removed_slot_not_held (l : list string) (pos : nat) (b : string) :
  l !! pos = Some b -> NoDup l ->
  holds (VIds (take pos l ++ drop (S pos) l)) b = false.
Proof.
  intros Hl Hnd. simpl. apply bool_decide_eq_false_2.
  rewrite <- (take_drop_middle l pos b Hl) in Hnd.
  apply NoDup_app in Hnd as (_ & Hdisj & Hr).
  apply NoDup_cons in Hr as [Hb _].
  intros Hin. apply elem_of_app in Hin as [Hin|Hin]; [|contradiction].
  apply (Hdisj _ Hin). left.
Qed.

(** C2. Owned references and parents agree. If the owned property [P] of
    node [A] holds the id of [B], and nothing else owns [B], then the parent
    of [B] is [A]; this is so whether [B] was created before or after [A].
    Once [P] no longer holds the id (it was set to null, cleared or
    replaced, or the position of the child was deleted from the array) [B]
    has no parent and its xpath is its own entry only. *)
Theorem parent_consistency (doc : gmap string DNode) (a b P : string)
  (A B : DNode) (v : Value) :
  doc !! a = Some A ->
  doc !! b = Some B ->
  id A = a ->
  id B = b ->
  a <> b ->
  props A !! P = Some v ->
  owned (type A) P = true ->
  holds v b = true ->
  sole_owner owned doc a b ->
  (forall p w, props A !! p = Some w -> owned (type A) p = true ->
               holds w b = true -> p = P) ->
  getParent owned doc b = Some A /\
  (forall doc0,
      owns owned B b = None ->
      (forall a' n, doc0 !! a' = Some n -> owns owned n b = None) ->
      getParent owned (create (create doc0 B) A) b = Some A /\
      getParent owned (create (create doc0 A) B) b = Some A) /\
  (forall v',
      holds v' b = false ->
      set doc a P v' !! b = Some B /\
      getParent owned (set doc a P v') b = None /\
      toArray (getXpath owned (set doc a P v') B) =
        [mkXEntry b (type B) None None]) /\
  (forall l pos,
      v = VIds l -> l !! pos = Some b -> NoDup l ->
      exists doc',
        update doc a P (ArrayDelete pos) = Ok doc' /\
        doc' !! b = Some B /\
        getParent owned doc' b = None /\
        toArray (getXpath owned doc' B) = [mkXEntry b (type B) None None]).
Proof.
  intros Ha Hb HidA HidB Hab HP Ho Hh Hsole Honly.
  assert (HA : is_Some (owns owned A b)) by (eapply owns_Some; eauto).
  split; [eapply getParent_Some; eauto|].
  split.
  { intros doc0 HB Hdoc0. subst a b.
    apply parent_creation_order; auto. }
  split.
  { intros v' Hv'. eapply parent_after_unlink; eauto. }
  intros l pos -> Hl Hnd.
  pose proof (lookup_lt_Some _ _ _ Hl) as Hlt.
  unfold update. rewrite Ha. unfold get_prop. rewrite HP. simpl.
  rewrite decide_True by exact Hlt. simpl.
  eexists. split; [reflexivity|].
  pose proof (parent_after_unlink doc a b P A B
                (VIds (take pos l ++ drop (S pos) l))
                Ha Hb HidB Hab Hsole Honly (removed_slot_not_held _ _ _ Hl Hnd))
    as Hun.
  unfold set in Hun. rewrite Ha in Hun. exact Hun.
Qed.

End ParentFacts.

Lemma parent_consistency_witness :
  ParentNode.getParent child_owned family "b" = Some parent_a /\
  ParentNode.getParent child_owned
    (ParentNode.create (ParentNode.create ∅ parent_a) child_b) "b" = Some parent_a /\
  ParentNode.getParent child_owned
    (ParentNode.set family "a" "foo" DocumentIndex.VNull) "b" = None /\
  ParentNode.toArray
    (ParentNode.getXpath child_owned
       (ParentNode.set family "a" "foo" DocumentIndex.VNull) child_b)
  = [ParentNode.mkXEntry "b" "child" None None].
Proof.
  destruct (parent_consistency child_owned family "a" "b" "foo" parent_a child_b
              (DocumentIndex.VStr "b"))
    as (H1 & H2 & H3 & _); try reflexivity.
  - discriminate.
  - intros a' n' Hn' Ho'. unfold family, ParentNode.create in Hn'. simpl in Hn'.
    destruct (decide (a' = "a"%string)) as [->|Ha]; [reflexivity|].
    rewrite lookup_insert_ne in Hn' by congruence.
    destruct (decide (a' = "b"%string)) as [->|Hb].
    + rewrite lookup_insert_eq in Hn'. injection Hn' as <-.
      vm_compute in Ho'. destruct Ho' as [? Ho']. discriminate.
    + rewrite lookup_insert_ne, lookup_empty in Hn' by congruence. discriminate.
  - intros p w Hp _ _. simpl in Hp.
    apply lookup_singleton_Some in Hp as [<- _]. reflexivity.
  - split; [exact H1|]. split.
    + apply (H2 ∅); [reflexivity|]. intros a' n Hn.
      rewrite lookup_empty in Hn. discriminate.
    + destruct (H3 DocumentIndex.VNull eq_refl) as (_ & Hp & Hx). auto.
Defined.

(** ** Remarks *)

(** [executeFuse] reports the first annotation it was given; that is the
    survivor of the fusion whenever no later annotation starts strictly
    earlier. *)
Lemma earliest_head (tx : Tx) (first : string * Node)
  (rest : list (string * Node)) :
  (forall a, a ∈ rest ->
             coor_ltb tx (anno_start a.2) (anno_start first.2) = false) ->
  earliest tx first rest = first.
Proof.
  induction rest as [|a rest IH]; intros H; simpl; [reflexivity|].
  rewrite (H a) by left. apply IH. intros x Hx. apply H. right. exact Hx.
Qed.

Lemma executeFuse_reports_survivor (tx : Tx) (first : string * Node)
  (rest : list (string * Node)) :
  canFuse (first :: rest) (selection tx) = true ->
  (forall a, a ∈ rest ->
             coor_ltb tx (anno_start a.2) (anno_start first.2) = false) ->
  executeFuse tx (first :: rest) =
    (tx' <- fuseAnnotation tx (first :: rest) ;;; Ok (tx', Some first.1)) /\
  (earliest tx first rest).1 = first.1.
Proof.
  intros Hcan Hfirst. unfold executeFuse. rewrite Hcan. simpl.
  split; [reflexivity|]. rewrite earliest_head by exact Hfirst. reflexivity.
Qed.

(** Row VI of the table is reached only with a collapsed cursor at the end
    of the annotation; when the selection that is typed over starts where
    the annotation ends, row V applies and the annotation grows over the
    inserted text, whatever its type. *)
Lemma case_VI_only_when_collapsed (inline expands : bool) (s e a b : Z) :
  s <= e ->
  (geometric_relation inline expands s e a b = Some CaseVI ->
   a < s /\ b = s /\ e = s /\ expands = false) /\
  (a < s -> b = s -> s < e ->
   geometric_relation inline expands s e a b = Some CaseV).
Proof.
  intros Hse. unfold geometric_relation. split.
  - repeat match goal with
           | |- context [if ?x then _ else _] => destruct x eqn:?
           end; try discriminate.
    intros _. destruct expands; [lia|]. lia.
  - intros Ha Hb Hlt.
    replace (b <? s) with false by lia.
    replace (e <=? a) with false by lia.
    replace (s <=? a) with false by lia.
    rewrite !andb_false_r. simpl.
    replace (a <? s) with true by lia. replace (b <? e) with true by lia.
    reflexivity.
Qed.
